(** * COLMAP: rig bookkeeping and the incremental mapper

    A shallow embedding of [Rig::AddRefSensor] and [Rig::AddSensor]
    (colmap/scene/rig.cc) and of the registration bookkeeping of
    [IncrementalMapper] (colmap/sfm/incremental_mapper.h), with the
    properties the specification states about them. *)

From stdpp Require Import gmap list sorting strings pretty.
From Stdlib Require Import ZArith QArith.QArith_base Lia.

Local Open Scope Z_scope.

(** ** Part I: the rig container (colmap/scene/rig.cc) *)

Module RigModel.

(** [THROW_CHECK] failures of rig.cc, one constructor per check, named after
    the message streamed into the exception:
    - [RefSensorAlreadySet]: "Reference sensor already set"
    - [RefSensorNeededFirst]: "The reference sensor needs to be added first
      before other sensors."
    - [SensorInsertedTwice t i]: "Sensor (t, i) is inserted twice into the
      rig". *)
Inductive check_failure (SensorType : Type) : Type :=
  | RefSensorAlreadySet
  | RefSensorNeededFirst
  | SensorInsertedTwice (type_ : SensorType) (id_ : Z).
Arguments RefSensorAlreadySet {SensorType}.
Arguments RefSensorNeededFirst {SensorType}.
Arguments SensorInsertedTwice {SensorType} type_ id_.

(** How a call ends: it returns, or a [THROW_CHECK] raised. *)
Inductive outcome (E A : Type) : Type :=
  | Returned (a : A)
  | Thrown (e : E).
Arguments Returned {E A} a.
Arguments Thrown {E A} e.

Definition is_thrown {E A} (o : outcome E A) : bool :=
  match o with Thrown _ => true | Returned _ => false end.

Section Rig.
(** The sensor type enumeration and the pose type are declared in headers
    that are not part of the sources at hand; the rig only compares sensor
    ids and stores poses, so both are kept abstract. *)
Context {SensorType : Type} `{Countable SensorType}.
Variable Rigid3d : Type.

(** [sensor_t]: the fields [type] and [id] that rig.cc reads. *)
Record sensor_t : Type := mk_sensor { type : SensorType; id : Z }.

#[global] Instance sensor_t_eq_dec : EqDecision sensor_t.
Proof. solve_decision. Defined.

#[global] Instance sensor_t_countable : Countable sensor_t.
Proof.
  refine (inj_countable' (fun s => (type s, id s))
                         (fun p => mk_sensor p.1 p.2) _).
  by intros [].
Defined.

(** The sentinel that marks an unset reference sensor. Its value is not
    part of rig.cc; every result below holds whatever it is. *)
Variable kInvalidSensorId : sensor_t.

(** The two members that rig.cc reads and writes. *)
Record Rig : Type := mk_rig {
  ref_sensor_id_ : sensor_t;
  sensors_from_rig_ : gmap sensor_t (option Rigid3d)
}.

(** Modelled from the spec: the default-constructed rig (rig.h is not among
    the sources). "One sensor is designated reference ... must be set
    exactly once", and [AddRefSensor] tests the member against the
    sentinel, so a new rig holds the sentinel and no other sensor. *)
Definition Rig_new : Rig :=
  {| ref_sensor_id_ := kInvalidSensorId; sensors_from_rig_ := ∅ |}.

(** Modelled from the spec: [Rig::NumSensors] (rig.h is not among the
    sources). A rig is "a collection of rigidly-mounted sensors; one sensor
    is designated reference; all others store a pose relative to the
    reference": the reference sensor, once set, plus the entries of the
    pose map. *)
Definition NumSensors (r : Rig) : nat :=
  size (sensors_from_rig_ r)
  + (if decide (ref_sensor_id_ r = kInvalidSensorId) then 0 else 1)%nat.

(** Modelled from the spec: [Rig::HasSensor] (rig.h is not among the
    sources): membership in that same collection. *)
Definition HasSensor (sensor_id : sensor_t) (r : Rig) : bool :=
  bool_decide (sensor_id = ref_sensor_id_ r)
  || bool_decide (is_Some (sensors_from_rig_ r !! sensor_id)).

(** *** Member functions as computations on the rig

    A member function takes the rig it is called on and gives the rig as
    the call leaves it together with the outcome. A raised check stops the
    function; what was written before it stays written. *)
Definition M (A : Type) : Type :=
  Rig → Rig * outcome (check_failure SensorType) A.

Definition ret {A} (a : A) : M A := fun r => (r, Returned a).

Definition bind {A B} (c : M A) (k : A → M B) : M B :=
  fun r =>
    match c r with
    | (r', Returned a) => k a r'
    | (r', Thrown e) => (r', Thrown e)
    end.

Definition this {A} (f : Rig → A) : M A := fun r => (r, Returned (f r)).

Definition assign (f : Rig → Rig) : M unit := fun r => (f r, Returned tt).

Definition THROW_CHECK (cond : bool) (e : check_failure SensorType) : M unit :=
  fun r => if cond then (r, Returned tt) else (r, Thrown e).

Notation "'let*' x := c 'in' k" := (bind c (fun x => k))
  (at level 10, x name, c at level 100, k at level 200).
Notation "c ;;; k" := (bind c (fun _ => k))
  (at level 100, k at level 200, right associativity).

(** [std::map::emplace]: inserts unless the key is present. *)
Definition emplace (k : sensor_t) (v : option Rigid3d)
    (m : gmap sensor_t (option Rigid3d)) : gmap sensor_t (option Rigid3d) :=
  match m !! k with
  | Some _ => m
  | None => <[k := v]> m
  end.

(** rig.cc, [Rig::AddRefSensor]. *)
Definition AddRefSensor (ref_sensor_id : sensor_t) : M unit :=
  let* cur := this ref_sensor_id_ in
  THROW_CHECK (bool_decide (cur = kInvalidSensorId)) RefSensorAlreadySet ;;;
  assign (fun r => {| ref_sensor_id_ := ref_sensor_id;
                      sensors_from_rig_ := sensors_from_rig_ r |}).

(** rig.cc, [Rig::AddSensor]. *)
Definition AddSensor (sensor_id : sensor_t)
    (sensor_from_rig : option Rigid3d) : M unit :=
  let* n := this NumSensors in
  THROW_CHECK (bool_decide (1 ≤ n)%nat) RefSensorNeededFirst ;;;
  let* has := this (HasSensor sensor_id) in
  THROW_CHECK (negb has)
    (SensorInsertedTwice (type sensor_id) (id sensor_id)) ;;;
  assign (fun r => {| ref_sensor_id_ := ref_sensor_id_ r;
                      sensors_from_rig_ :=
                        emplace sensor_id sensor_from_rig
                                (sensors_from_rig_ r) |}).

(** *** Histories of calls on one rig *)
Inductive call : Type :=
  | CallAddRefSensor (ref_sensor_id : sensor_t)
  | CallAddSensor (sensor_id : sensor_t) (sensor_from_rig : option Rigid3d).

Definition exec (c : call) : M unit :=
  match c with
  | CallAddRefSensor i => AddRefSensor i
  | CallAddSensor i p => AddSensor i p
  end.

(** The rig after a call, whether it returned or raised (the caller caught
    the exception and kept the rig). *)
Definition after (r : Rig) (c : call) : Rig := (exec c r).1.

Definition run (cs : list call) (r : Rig) : Rig := foldl after r cs.

Definition is_AddRefSensor (c : call) : bool :=
  match c with CallAddRefSensor _ => true | CallAddSensor _ _ => false end.

(** No call of the history is an [AddRefSensor]. *)
Definition no_AddRefSensor (cs : list call) : bool :=
  forallb (fun c => negb (is_AddRefSensor c)) cs.

(** While the reference sensor is unset, the rig holds no sensor at all (an
    invariant of the rigs reached from [Rig_new]). *)
Definition unset_means_empty (r : Rig) : Prop :=
  ref_sensor_id_ r = kInvalidSensorId → sensors_from_rig_ r = ∅.

End Rig.

Arguments mk_sensor {SensorType} type id.
Arguments type {SensorType} s.
Arguments id {SensorType} s.
Arguments mk_rig {SensorType _ _ Rigid3d} ref_sensor_id_ sensors_from_rig_.
Arguments ref_sensor_id_ {SensorType _ _ Rigid3d} r.
Arguments sensors_from_rig_ {SensorType _ _ Rigid3d} r.
Arguments NumSensors {SensorType _ _ Rigid3d} kInvalidSensorId r.
Arguments HasSensor {SensorType _ _ Rigid3d} sensor_id r.
Arguments emplace {SensorType _ _ Rigid3d} k v m.
Arguments AddRefSensor {SensorType _ _ Rigid3d} kInvalidSensorId
  ref_sensor_id _.
Arguments AddSensor {SensorType _ _ Rigid3d} kInvalidSensorId sensor_id
  sensor_from_rig _.
Arguments CallAddRefSensor {SensorType Rigid3d} ref_sensor_id.
Arguments CallAddSensor {SensorType Rigid3d} sensor_id sensor_from_rig.
Arguments exec {SensorType _ _ Rigid3d} kInvalidSensorId c _.
Arguments after {SensorType _ _ Rigid3d} kInvalidSensorId r c.
Arguments run {SensorType _ _ Rigid3d} kInvalidSensorId cs r.
Arguments is_AddRefSensor {SensorType Rigid3d} c.
Arguments no_AddRefSensor {SensorType Rigid3d} cs.
Arguments unset_means_empty {SensorType _ _ Rigid3d} kInvalidSensorId r.

(** A concrete instance to evaluate the rig on: sensor types numbered like an
    enumeration, poses left as labels, the sentinel an id of type -1. *)
Definition example_invalid_sensor : @sensor_t Z :=
  mk_sensor (-1) 4294967295.

Definition example_camera (n : Z) : @sensor_t Z := mk_sensor 0 n.

Definition example_rig : Rig (SensorType := Z) nat :=
  mk_rig (example_camera 1) ∅.

End RigModel.

(** ** Part II: the incremental mapper (colmap/sfm/incremental_mapper.h)

    The header declares the mapper's interface, its options and its
    registration statistics; those are embedded as declared. The member
    functions are defined in incremental_mapper.cc, which is not among the
    sources: each is modelled from the specification and from the header's
    comments, and says so. Geometry estimation (two-view geometry, absolute
    pose, triangulation, bundle adjustment) is external to the mapper and is
    a parameter of the model. *)

Module MapperModel.

Import RigModel.

Abbreviation image_t := N.
Abbreviation frame_t := N.
Abbreviation camera_t := N.
Abbreviation rig_t := N.
Abbreviation point3D_t := N.
Abbreviation point2D_t := N.
Abbreviation image_pair_t := (N * N)%type.

(** [IncrementalMapper::Options::ImageSelectionMethod]. *)
Inductive ImageSelectionMethod : Type :=
  | MAX_VISIBLE_POINTS_NUM
  | MAX_VISIBLE_POINTS_RATIO
  | MIN_UNCERTAINTY.

(** [IncrementalMapper::Options]. An [int] is a [Z]; a [double] is read as the
    rational it denotes (the mapper only compares them with thresholds). *)
Record Options : Type := mk_options {
  init_min_num_inliers : Z;
  init_max_error : Q;
  init_max_forward_motion : Q;
  init_min_tri_angle : Q;
  init_max_reg_trials : Z;
  abs_pose_max_error : Q;
  abs_pose_min_num_inliers : Z;
  abs_pose_min_inlier_ratio : Q;
  abs_pose_refine_focal_length : bool;
  abs_pose_refine_extra_params : bool;
  local_ba_num_images : Z;
  local_ba_min_tri_angle : Q;
  min_focal_length_ratio : Q;
  max_focal_length_ratio : Q;
  max_extra_param : Q;
  filter_max_reproj_error : Q;
  filter_min_tri_angle : Q;
  max_reg_trials : Z;
  fix_existing_frames : bool;
  use_prior_position : bool;
  use_robust_loss_on_prior_position : bool;
  prior_position_loss_scale : Q;
  num_threads : Z;
  image_selection_method : ImageSelectionMethod
}.

(** The member initialisers of [Options]. *)
Definition Options_default : Options :=
  {| init_min_num_inliers := 100;
     init_max_error := 4 # 1;
     init_max_forward_motion := 95 # 100;
     init_min_tri_angle := 16 # 1;
     init_max_reg_trials := 2;
     abs_pose_max_error := 12 # 1;
     abs_pose_min_num_inliers := 30;
     abs_pose_min_inlier_ratio := 25 # 100;
     abs_pose_refine_focal_length := true;
     abs_pose_refine_extra_params := true;
     local_ba_num_images := 6;
     local_ba_min_tri_angle := 6 # 1;
     min_focal_length_ratio := 1 # 10;
     max_focal_length_ratio := 10 # 1;
     max_extra_param := 1 # 1;
     filter_max_reproj_error := 4 # 1;
     filter_min_tri_angle := 15 # 10;
     max_reg_trials := 3;
     fix_existing_frames := false;
     use_prior_position := false;
     use_robust_loss_on_prior_position := false;
     prior_position_loss_scale := 7815 # 1000;
     num_threads := -1;
     image_selection_method := MIN_UNCERTAINTY |}.

(** [IncrementalMapper::RegistrationStatistics]. The [size_t] counters count
    images and frames and are kept as [nat]. *)
Record RegistrationStatistics : Type := mk_stats {
  num_total_reg_images : nat;
  num_shared_reg_images : nat;
  init_num_reg_trials : gmap image_t nat;
  init_image_pairs : gset image_pair_t;
  num_reg_frames_per_rig : gmap rig_t nat;
  num_reg_images_per_camera : gmap camera_t nat;
  num_registrations : gmap image_t nat;
  num_reg_trials : gmap image_t nat
}.

(** The statistics of a newly constructed mapper (the member initialisers). *)
Definition RegistrationStatistics_new : RegistrationStatistics :=
  {| num_total_reg_images := 0; num_shared_reg_images := 0;
     init_num_reg_trials := ∅; init_image_pairs := ∅;
     num_reg_frames_per_rig := ∅; num_reg_images_per_camera := ∅;
     num_registrations := ∅; num_reg_trials := ∅ |}.

(** [counters[k]] on an [unordered_map<_, size_t>]: an absent key reads 0. *)
Definition count_at (k : N) (m : gmap N nat) : nat :=
  default 0%nat (m !! k).

(** [counters[k] += 1]. *)
Definition incr (k : N) (m : gmap N nat) : gmap N nat :=
  <[k := S (count_at k m)]> m.

(** [counters[k] -= 1]. *)
Definition decr (k : N) (m : gmap N nat) : gmap N nat :=
  <[k := Nat.pred (count_at k m)]> m.

(** One observation of a track: a keypoint of an image. *)
Record TrackElement : Type := mk_track_el {
  image_id : image_t;
  point2D_idx : point2D_t
}.

#[global] Instance TrackElement_eq_dec : EqDecision TrackElement.
Proof. solve_decision. Defined.

(** A triangulated point as the mapper sees it: the cached error of the
    point and its track. *)
Record Point3D : Type := mk_point3D {
  error : Q;
  track : list TrackElement
}.

(** Contract violations of the mapper ("programmer errors - fatal"). *)
Inductive contract_violation : Type :=
  | ReconstructionAlreadyAttached
  | NoReconstructionAttached
  | NotInitialized
  | FrameAlreadyRegistered.

Section Mapper.

(** Poses and intrinsics of the scene: only the external estimators read
    them. *)
Variable Geometry : Type.
Variable Rigid3d : Type.

(** The scene graph as far as the mapper's bookkeeping goes: the registered
    frames, the points with their tracks, and the geometry. *)
Record Reconstruction : Type := mk_reconstruction {
  reg_frame_ids : gset frame_t;
  points3D : gmap point3D_t Point3D;
  geometry : Geometry
}.

(** The read-only database cache: images, the frame of an image, the images
    of a frame, rigs and cameras, and the image pairs of the correspondence
    graph (most correspondences first). *)
Record DatabaseCache : Type := mk_database_cache {
  images : list image_t;
  image_frame : image_t → frame_t;
  frame_images : frame_t → list image_t;
  frame_rig : frame_t → rig_t;
  image_camera : image_t → camera_t;
  image_pairs : list image_pair_t
}.

Variable database_cache_ : DatabaseCache.

(** The result of a two-view geometry estimation. *)
Record TwoViewGeometry : Type := mk_two_view {
  tv_num_inliers : Z;
  tv_error : Q;
  tv_forward_motion : Q;
  tv_tri_angle : Q;
  tv_cam2_from_cam1 : Rigid3d
}.

(** The result of an absolute pose estimation. *)
Record AbsolutePose : Type := mk_abs_pose {
  ap_num_inliers : Z;
  ap_inlier_ratio : Q;
  ap_error : Q
}.

(** External estimators and the observation manager's statistics. *)
Variable EstimateTwoViewGeometry :
  Options → image_t → image_t → TwoViewGeometry.
Variable EstimateAbsolutePose :
  Options → Reconstruction → image_t → AbsolutePose.
Variable RegisterAndTriangulate :
  Options → Reconstruction → image_t → gmap point3D_t Point3D * Geometry.
Variable SeedAndTriangulate :
  Options → Reconstruction → image_t → image_t → Rigid3d →
  gmap point3D_t Point3D * Geometry.
Variable num_visible_points3D : Reconstruction → image_t → Q.
Variable visible_points3D_ratio : Reconstruction → image_t → Q.
Variable pose_uncertainty : Reconstruction → image_t → Q.
Variable has_degenerate_pose : Options → Reconstruction → frame_t → bool.
Variable reproj_error : Geometry → point3D_t → TrackElement → Q.
Variable tri_angle : Geometry → point3D_t → Q.

(** The members of [IncrementalMapper]: the attached reconstruction (none
    when idle), the statistics, the filtered frames and the frames that were
    registered before the reconstruction began. *)
Record IncrementalMapper : Type := mk_mapper {
  reconstruction_ : option Reconstruction;
  reg_stats_ : RegistrationStatistics;
  filtered_frames_ : gset frame_t;
  existing_frame_ids_ : gset frame_t
}.

(** The constructor. *)
Definition IncrementalMapper_new : IncrementalMapper :=
  {| reconstruction_ := None; reg_stats_ := RegistrationStatistics_new;
     filtered_frames_ := ∅; existing_frame_ids_ := ∅ |}.

Definition result (A : Type) : Type := outcome contract_violation A.

Definition set_reg_stats (s : RegistrationStatistics) (m : IncrementalMapper)
    : IncrementalMapper :=
  {| reconstruction_ := reconstruction_ m; reg_stats_ := s;
     filtered_frames_ := filtered_frames_ m;
     existing_frame_ids_ := existing_frame_ids_ m |}.

Definition set_reconstruction (r : Reconstruction) (m : IncrementalMapper)
    : IncrementalMapper :=
  {| reconstruction_ := Some r; reg_stats_ := reg_stats_ m;
     filtered_frames_ := filtered_frames_ m;
     existing_frame_ids_ := existing_frame_ids_ m |}.

(** *** Registration events *)

(** Modelled from the spec: the per-image part of
    [IncrementalMapper::RegisterFrameEvent] (incremental_mapper.cc is not
    among the sources). The header defines the counters: [num_registrations]
    is "the number of reconstructions in which images are registered",
    [num_total_reg_images] the "number of images that are registered in at
    least one reconstruction", [num_shared_reg_images] the "number of shared
    images between current reconstruction and all other previous
    reconstructions". Registering an image in the current reconstruction
    raises its number of registrations; the image is new to the total when
    that number becomes one and shared with an earlier reconstruction
    otherwise. The per-camera count is raised with it. *)
Definition register_image (i : image_t) (s : RegistrationStatistics)
    : RegistrationStatistics :=
  let n := S (count_at i (num_registrations s)) in
  {| num_total_reg_images :=
       if bool_decide (n = 1%nat) then S (num_total_reg_images s)
       else num_total_reg_images s;
     num_shared_reg_images :=
       if bool_decide (n = 1%nat) then num_shared_reg_images s
       else S (num_shared_reg_images s);
     init_num_reg_trials := init_num_reg_trials s;
     init_image_pairs := init_image_pairs s;
     num_reg_frames_per_rig := num_reg_frames_per_rig s;
     num_reg_images_per_camera :=
       incr (image_camera database_cache_ i) (num_reg_images_per_camera s);
     num_registrations := <[i := n]> (num_registrations s);
     num_reg_trials := num_reg_trials s |}.

(** Modelled from the spec: the per-image part of
    [IncrementalMapper::DeRegisterFrameEvent] (incremental_mapper.cc is not
    among the sources): the reverse of [register_image]. The number of
    registrations drops; the image leaves the total when it reaches zero and
    is no longer shared otherwise. *)
Definition deregister_image (i : image_t) (s : RegistrationStatistics)
    : RegistrationStatistics :=
  let n := Nat.pred (count_at i (num_registrations s)) in
  {| num_total_reg_images :=
       if bool_decide (n = 0%nat) then Nat.pred (num_total_reg_images s)
       else num_total_reg_images s;
     num_shared_reg_images :=
       if bool_decide (n = 0%nat) then num_shared_reg_images s
       else Nat.pred (num_shared_reg_images s);
     init_num_reg_trials := init_num_reg_trials s;
     init_image_pairs := init_image_pairs s;
     num_reg_frames_per_rig := num_reg_frames_per_rig s;
     num_reg_images_per_camera :=
       decr (image_camera database_cache_ i) (num_reg_images_per_camera s);
     num_registrations := <[i := n]> (num_registrations s);
     num_reg_trials := num_reg_trials s |}.

Definition set_num_reg_frames_per_rig (c : gmap rig_t nat)
    (s : RegistrationStatistics) : RegistrationStatistics :=
  {| num_total_reg_images := num_total_reg_images s;
     num_shared_reg_images := num_shared_reg_images s;
     init_num_reg_trials := init_num_reg_trials s;
     init_image_pairs := init_image_pairs s;
     num_reg_frames_per_rig := c;
     num_reg_images_per_camera := num_reg_images_per_camera s;
     num_registrations := num_registrations s;
     num_reg_trials := num_reg_trials s |}.

Definition set_num_shared_reg_images (n : nat)
    (s : RegistrationStatistics) : RegistrationStatistics :=
  {| num_total_reg_images := num_total_reg_images s;
     num_shared_reg_images := n;
     init_num_reg_trials := init_num_reg_trials s;
     init_image_pairs := init_image_pairs s;
     num_reg_frames_per_rig := num_reg_frames_per_rig s;
     num_reg_images_per_camera := num_reg_images_per_camera s;
     num_registrations := num_registrations s;
     num_reg_trials := num_reg_trials s |}.

Definition set_num_reg_trials (c : gmap image_t nat)
    (s : RegistrationStatistics) : RegistrationStatistics :=
  {| num_total_reg_images := num_total_reg_images s;
     num_shared_reg_images := num_shared_reg_images s;
     init_num_reg_trials := init_num_reg_trials s;
     init_image_pairs := init_image_pairs s;
     num_reg_frames_per_rig := num_reg_frames_per_rig s;
     num_reg_images_per_camera := num_reg_images_per_camera s;
     num_registrations := num_registrations s;
     num_reg_trials := c |}.

(** Modelled from the spec: [IncrementalMapper::RegisterFrameEvent]
    (declared in the header: "Register / De-register frame in current
    reconstruction and update the (shared) registration statistics"; defined
    in incremental_mapper.cc, not among the sources). The frame counts for
    its rig and each of its images is registered. *)
Definition RegisterFrameEvent (frame_id : frame_t)
    (s : RegistrationStatistics) : RegistrationStatistics :=
  foldl (fun s i => register_image i s)
        (set_num_reg_frames_per_rig
           (incr (frame_rig database_cache_ frame_id)
                 (num_reg_frames_per_rig s)) s)
        (frame_images database_cache_ frame_id).

(** Modelled from the spec: [IncrementalMapper::DeRegisterFrameEvent]
    (declared in the header, defined in incremental_mapper.cc, not among the
    sources). *)
Definition DeRegisterFrameEvent (frame_id : frame_t)
    (s : RegistrationStatistics) : RegistrationStatistics :=
  foldl (fun s i => deregister_image i s)
        (set_num_reg_frames_per_rig
           (decr (frame_rig database_cache_ frame_id)
                 (num_reg_frames_per_rig s)) s)
        (frame_images database_cache_ frame_id).

(** *** Beginning and ending a reconstruction *)

(** Modelled from the spec: [IncrementalMapper::BeginReconstruction]
    (incremental_mapper.cc is not among the sources). "[BeginReconstruction]
    transitions to Active; if the supplied scene already has registered
    frames, the mapper marks them as existing". The statistics are kept
    "consistent with the scene graph's actual registration state": the
    frames already registered in the scene are registered in the current
    reconstruction, so each gets its registration event. The header counts
    in [num_shared_reg_images] the "shared images between current
    reconstruction and all other previous reconstructions" and in
    [num_reg_trials] the trials "in current reconstruction": both are
    quantities of the reconstruction that begins, so the shared count starts
    from zero, before the events of the scene's frames, and the trial
    counters start empty. The filtered set lives "for the lifetime of the
    reconstruction" and starts empty too. *)
Definition BeginReconstruction (reconstruction : Reconstruction)
    (m : IncrementalMapper) : result IncrementalMapper :=
  match reconstruction_ m with
  | Some _ => Thrown ReconstructionAlreadyAttached
  | None =>
      let frames := elements (reg_frame_ids reconstruction) in
      Returned
        {| reconstruction_ := Some reconstruction;
           reg_stats_ :=
             set_num_reg_trials ∅
               (foldl (fun s f => RegisterFrameEvent f s)
                      (set_num_shared_reg_images 0 (reg_stats_ m))
                      frames);
           filtered_frames_ := ∅;
           existing_frame_ids_ := reg_frame_ids reconstruction |}
  end.

(** Modelled from the spec: [IncrementalMapper::EndReconstruction]
    (incremental_mapper.cc is not among the sources). "If [discard] is true,
    the attached scene's changes are abandoned and global registration counts
    are rolled back; otherwise they are committed"; the header: "If the model
    is discarded, the number of total and shared registered images will be
    updated accordingly". A discarded reconstruction no longer registers its
    frames, so each registered frame gets its de-registration event. *)
Definition EndReconstruction (discard : bool) (m : IncrementalMapper)
    : result IncrementalMapper :=
  match reconstruction_ m with
  | None => Thrown NoReconstructionAttached
  | Some r =>
      Returned
        {| reconstruction_ := None;
           reg_stats_ :=
             if discard then
               foldl (fun s f => DeRegisterFrameEvent f s) (reg_stats_ m)
                     (elements (reg_frame_ids r))
             else reg_stats_ m;
           filtered_frames_ := ∅;
           existing_frame_ids_ := ∅ |}
  end.

(** *** Initialisation *)

(** Modelled from the spec: the acceptance test of
    [IncrementalMapper::EstimateInitialTwoViewGeometry]
    (incremental_mapper.cc is not among the sources): "accepts only if inlier
    count >= init_min_num_inliers, estimation error <= init_max_error,
    forward motion <= init_max_forward_motion, and median triangulation
    angle >= init_min_tri_angle". *)
Definition suitable_for_initialization (options : Options)
    (g : TwoViewGeometry) : bool :=
  (init_min_num_inliers options <=? tv_num_inliers g)
  && Qle_bool (tv_error g) (init_max_error options)
  && Qle_bool (tv_forward_motion g) (init_max_forward_motion options)
  && Qle_bool (init_min_tri_angle options) (tv_tri_angle g).

(** Modelled from the spec: [IncrementalMapper::EstimateInitialTwoViewGeometry]
    ("Estimate two view geometry and checks if it is suitable for
    initialization"): the relative pose when the pair is accepted. *)
Definition EstimateInitialTwoViewGeometry (options : Options)
    (image_id1 image_id2 : image_t) : option Rigid3d :=
  let g := EstimateTwoViewGeometry options image_id1 image_id2 in
  if suitable_for_initialization options g then Some (tv_cam2_from_cam1 g)
  else None.

(** Modelled from the spec: which pairs [FindInitialImagePair] skips: "pairs
    already attempted (tracked in Registration Statistics) or whose images
    exceed init_max_reg_trials attempts". *)
Definition init_pair_skipped (options : Options) (s : RegistrationStatistics)
    (pr : image_pair_t) : bool :=
  bool_decide (pr ∈ init_image_pairs s)
  || bool_decide (init_max_reg_trials options
                  < Z.of_nat (count_at pr.1 (init_num_reg_trials s)))
  || bool_decide (init_max_reg_trials options
                  < Z.of_nat (count_at pr.2 (init_num_reg_trials s))).

(** Modelled from the spec: how [FindInitialImagePair] records an attempt
    ("pairs already attempted (tracked in Registration Statistics)", images
    that "exceed init_max_reg_trials attempts"): the pair joins the attempted
    pairs and both images count one more initialisation trial. *)
Definition record_init_attempt (pr : image_pair_t)
    (s : RegistrationStatistics) : RegistrationStatistics :=
  {| num_total_reg_images := num_total_reg_images s;
     num_shared_reg_images := num_shared_reg_images s;
     init_num_reg_trials := incr pr.2 (incr pr.1 (init_num_reg_trials s));
     init_image_pairs := {[pr]} ∪ init_image_pairs s;
     num_reg_frames_per_rig := num_reg_frames_per_rig s;
     num_reg_images_per_camera := num_reg_images_per_camera s;
     num_registrations := num_registrations s;
     num_reg_trials := num_reg_trials s |}.

(** Modelled from the spec: the search of [FindInitialImagePair] through the
    candidate pairs, in their order; the first accepted pair is returned. *)
Fixpoint search_initial_pair (options : Options) (pairs : list image_pair_t)
    (s : RegistrationStatistics)
    : RegistrationStatistics * option (image_t * image_t * Rigid3d) :=
  match pairs with
  | [] => (s, None)
  | pr :: rest =>
      if init_pair_skipped options s pr then
        search_initial_pair options rest s
      else
        let s' := record_init_attempt pr s in
        match EstimateInitialTwoViewGeometry options pr.1 pr.2 with
        | Some cam2_from_cam1 => (s', Some (pr.1, pr.2, cam2_from_cam1))
        | None => search_initial_pair options rest s'
        end
  end.

(** Modelled from the spec: [IncrementalMapper::FindInitialImagePair]
    (incremental_mapper.cc is not among the sources): "searches image pairs
    with the most correspondences, skipping pairs already attempted or whose
    images exceed init_max_reg_trials attempts. Estimates two-view relative
    pose; accepts only if ... Fails (returns no pair) if no candidate
    qualifies." [None] is the [false] return. *)
Definition FindInitialImagePair (options : Options) (m : IncrementalMapper)
    : result (IncrementalMapper * option (image_t * image_t * Rigid3d)) :=
  match reconstruction_ m with
  | None => Thrown NoReconstructionAttached
  | Some _ =>
      let found := search_initial_pair options (image_pairs database_cache_)
                                       (reg_stats_ m) in
      Returned (set_reg_stats found.1 m, found.2)
  end.

(** Modelled from the spec: how [RegisterInitialImagePair] "records both
    images as registered": a frame that is not yet registered becomes
    registered, with its event. *)
Definition register_frame (f : frame_t)
    (st : gset frame_t * RegistrationStatistics)
    : gset frame_t * RegistrationStatistics :=
  if decide (f ∈ st.1) then st
  else ({[f]} ∪ st.1, RegisterFrameEvent f st.2).

(** Modelled from the spec: [IncrementalMapper::RegisterInitialImagePair]
    (incremental_mapper.cc is not among the sources): "seeds the scene with
    the two images at a fixed relative pose, triangulates their shared
    correspondences, and records both images as registered". *)
Definition RegisterInitialImagePair (options : Options)
    (image_id1 image_id2 : image_t) (cam2_from_cam1 : Rigid3d)
    (m : IncrementalMapper) : result IncrementalMapper :=
  match reconstruction_ m with
  | None => Thrown NoReconstructionAttached
  | Some r =>
      let f1 := image_frame database_cache_ image_id1 in
      let f2 := image_frame database_cache_ image_id2 in
      if decide (f1 ∈ reg_frame_ids r ∨ f2 ∈ reg_frame_ids r) then
        Thrown FrameAlreadyRegistered
      else
        let st := register_frame f2
                    (register_frame f1 (reg_frame_ids r, reg_stats_ m)) in
        let scene := SeedAndTriangulate options r image_id1 image_id2
                                        cam2_from_cam1 in
        Returned
          {| reconstruction_ :=
               Some {| reg_frame_ids := st.1; points3D := scene.1;
                       geometry := scene.2 |};
             reg_stats_ := st.2;
             filtered_frames_ := filtered_frames_ m;
             existing_frame_ids_ := existing_frame_ids_ m |}
  end.

(** *** Registering further images *)

(** Modelled from the spec: [FindNextImages] "excludes images that exhausted
    max_reg_trials"; the header: "ignores images that failed to registered
    for max_reg_trials". *)
Definition exhausted_reg_trials (options : Options)
    (s : RegistrationStatistics) (i : image_t) : bool :=
  bool_decide (max_reg_trials options
               ≤ Z.of_nat (count_at i (num_reg_trials s))).

(** Modelled from the spec: the images [FindNextImages] considers:
    unregistered, neither in a filtered frame ("never re-tried") nor out of
    trials. *)
Definition next_image_candidate (options : Options) (m : IncrementalMapper)
    (r : Reconstruction) (i : image_t) : bool :=
  negb (bool_decide (image_frame database_cache_ i ∈ reg_frame_ids r))
  && negb (bool_decide (image_frame database_cache_ i ∈ filtered_frames_ m))
  && negb (exhausted_reg_trials options (reg_stats_ m) i).

(** Modelled from the spec: the three ranking policies of [FindNextImages]:
    more visible points first, higher ratio first, "lowest uncertainty
    first". *)
Definition ranks_before (method : ImageSelectionMethod) (r : Reconstruction)
    (a b : image_t) : Prop :=
  match method with
  | MAX_VISIBLE_POINTS_NUM =>
      Qle_bool (num_visible_points3D r b) (num_visible_points3D r a) = true
  | MAX_VISIBLE_POINTS_RATIO =>
      Qle_bool (visible_points3D_ratio r b) (visible_points3D_ratio r a) = true
  | MIN_UNCERTAINTY =>
      Qle_bool (pose_uncertainty r a) (pose_uncertainty r b) = true
  end.

#[global] Instance ranks_before_dec method r a b :
  Decision (ranks_before method r a b).
Proof. destruct method; simpl; apply _. Defined.

(** Modelled from the spec: [IncrementalMapper::FindNextImages]
    (incremental_mapper.cc is not among the sources): "ranks unregistered
    images by one of three policies ... and excludes images that exhausted
    max_reg_trials. Returns an ordered candidate list". *)
Definition FindNextImages (options : Options) (m : IncrementalMapper)
    : result (list image_t) :=
  match reconstruction_ m with
  | None => Thrown NoReconstructionAttached
  | Some r =>
      Returned
        (merge_sort (ranks_before (image_selection_method options) r)
           (filter (fun i => next_image_candidate options m r i = true)
                   (images database_cache_)))
  end.

(** Modelled from the spec: the acceptance test of [RegisterNextImage]:
    "accepts only if inlier count >= abs_pose_min_num_inliers, inlier ratio
    >= abs_pose_min_inlier_ratio, and reprojection error <=
    abs_pose_max_error". *)
Definition abs_pose_accepted (options : Options) (e : AbsolutePose) : bool :=
  (abs_pose_min_num_inliers options <=? ap_num_inliers e)
  && Qle_bool (abs_pose_min_inlier_ratio options) (ap_inlier_ratio e)
  && Qle_bool (ap_error e) (abs_pose_max_error options).

(** Modelled from the spec: [IncrementalMapper::RegisterNextImage]
    (incremental_mapper.cc is not among the sources). "On success, updates
    the scene graph, triangulates new observations for the image, and updates
    Registration Statistics (increments trial and registration counters;
    increments per-rig/per-camera registered counts). On failure, increments
    the image's trial counter only". Calling it "before any initialization"
    is a contract violation, and so is registering a registered frame. *)
Definition RegisterNextImage (options : Options) (image_id : image_t)
    (m : IncrementalMapper) : result (IncrementalMapper * bool) :=
  match reconstruction_ m with
  | None => Thrown NoReconstructionAttached
  | Some r =>
      let f := image_frame database_cache_ image_id in
      if decide (reg_frame_ids r = ∅) then Thrown NotInitialized
      else if decide (f ∈ reg_frame_ids r) then Thrown FrameAlreadyRegistered
      else
        let s := set_num_reg_trials
                   (incr image_id (num_reg_trials (reg_stats_ m)))
                   (reg_stats_ m) in
        if abs_pose_accepted options
             (EstimateAbsolutePose options r image_id) then
          let scene := RegisterAndTriangulate options r image_id in
          Returned
            ({| reconstruction_ :=
                  Some {| reg_frame_ids := {[f]} ∪ reg_frame_ids r;
                          points3D := scene.1; geometry := scene.2 |};
                reg_stats_ := RegisterFrameEvent f s;
                filtered_frames_ := filtered_frames_ m;
                existing_frame_ids_ := existing_frame_ids_ m |}, true)
        else Returned (set_reg_stats s m, false)
  end.

(** *** Filtering *)

(** Modelled from the spec: [IncrementalMapper::FilterFrames]
    (incremental_mapper.cc is not among the sources): "remove frames whose
    pose becomes degenerate ...; filtered frame ids accumulate in a filtered
    set for the lifetime of the reconstruction". A removed frame is
    de-registered, with its event. Returns the number of removed frames. *)
Definition FilterFrames (options : Options) (m : IncrementalMapper)
    : result (IncrementalMapper * nat) :=
  match reconstruction_ m with
  | None => Thrown NoReconstructionAttached
  | Some r =>
      let bad := filter (fun f => has_degenerate_pose options r f = true)
                        (elements (reg_frame_ids r)) in
      Returned
        ({| reconstruction_ :=
              Some {| reg_frame_ids := reg_frame_ids r ∖ list_to_set bad;
                      points3D := points3D r; geometry := geometry r |};
            reg_stats_ :=
              foldl (fun s f => DeRegisterFrameEvent f s) (reg_stats_ m) bad;
            filtered_frames_ := list_to_set bad ∪ filtered_frames_ m;
            existing_frame_ids_ := existing_frame_ids_ m |},
         length bad)
  end.

(** Modelled from the spec: the test of [FilterPoints]: a point stays unless
    its "reprojection error exceeds filter_max_reproj_error" in an observing
    image or its "triangulation angle falls below filter_min_tri_angle". *)
Definition point_kept (options : Options) (g : Geometry)
    (point3D_id : point3D_t) (p : Point3D) : bool :=
  forallb (fun el => Qle_bool (reproj_error g point3D_id el)
                              (filter_max_reproj_error options))
          (track p)
  && Qle_bool (filter_min_tri_angle options) (tri_angle g point3D_id).

(** Modelled from the spec: [IncrementalMapper::FilterPoints]
    (incremental_mapper.cc is not among the sources): "remove ... points
    whose reprojection error exceeds filter_max_reproj_error or triangulation
    angle falls below filter_min_tri_angle". Returns the number of removed
    points. *)
Definition FilterPoints (options : Options) (m : IncrementalMapper)
    : result (IncrementalMapper * nat) :=
  match reconstruction_ m with
  | None => Thrown NoReconstructionAttached
  | Some r =>
      let kept := filter (fun kv : point3D_t * Point3D =>
                            point_kept options (geometry r) kv.1 kv.2 = true)
                         (points3D r) in
      Returned
        (set_reconstruction
           {| reg_frame_ids := reg_frame_ids r; points3D := kept;
              geometry := geometry r |} m,
         (size (points3D r) - size kept)%nat)
  end.

(** *** Merging tracks *)

(** Modelled from the spec: the merge of two points of the scene
    (incremental_triangulator.cc and the scene classes are not among the
    sources): "when two distinct tracks are found to reference mutually
    matching keypoints, merges them into one, keeping the point whose
    reprojection error is lower ..., and takes the union of their
    observations". [None] when the ids do not name two distinct points. *)
Definition MergePoints3D (point3D_id1 point3D_id2 : point3D_t)
    (points : gmap point3D_t Point3D)
    : option (point3D_t * gmap point3D_t Point3D) :=
  if decide (point3D_id1 = point3D_id2) then None
  else
    match points !! point3D_id1, points !! point3D_id2 with
    | Some p1, Some p2 =>
        let observations := list_union (track p1) (track p2) in
        if Qle_bool (error p1) (error p2) then
          Some (point3D_id1,
                <[point3D_id1 := {| error := error p1;
                                    track := observations |}]>
                  (delete point3D_id2 points))
        else
          Some (point3D_id2,
                <[point3D_id2 := {| error := error p2;
                                    track := observations |}]>
                  (delete point3D_id1 points))
    | _, _ => None
    end.

(** The observation set of a track. *)
Definition observations_of (ps : gmap point3D_t Point3D) (i : point3D_t)
    (el : TrackElement) : Prop :=
  ∃ p, ps !! i = Some p ∧ el ∈ track p.

(** *** Any other step on the scene *)

(** Modelled from the spec: [TriangulateImage], [Retriangulate],
    [CompleteTracks], [MergeTracks], [CompleteAndMergeTracks] and the bundle
    adjustments, as far as the bookkeeping goes: they "delegate to the
    Triangulator" or "invoke the external solver", which hand back new points
    and new geometry; the registered frames and the statistics stay. *)
Definition UpdateScene (points : gmap point3D_t Point3D) (g : Geometry)
    (m : IncrementalMapper) : result IncrementalMapper :=
  match reconstruction_ m with
  | None => Thrown NoReconstructionAttached
  | Some r =>
      Returned (set_reconstruction
                  {| reg_frame_ids := reg_frame_ids r; points3D := points;
                     geometry := g |} m)
  end.

(** Modelled from the spec: [IncrementalMapper::ResetInitializationStats]
    (incremental_mapper.cc is not among the sources); the header: "Reset
    registration statistics for initialization ... such that previously tried
    pairs will be tried again". *)
Definition ResetInitializationStats (m : IncrementalMapper)
    : IncrementalMapper :=
  set_reg_stats
    {| num_total_reg_images := num_total_reg_images (reg_stats_ m);
       num_shared_reg_images := num_shared_reg_images (reg_stats_ m);
       init_num_reg_trials := ∅;
       init_image_pairs := ∅;
       num_reg_frames_per_rig := num_reg_frames_per_rig (reg_stats_ m);
       num_reg_images_per_camera := num_reg_images_per_camera (reg_stats_ m);
       num_registrations := num_registrations (reg_stats_ m);
       num_reg_trials := num_reg_trials (reg_stats_ m) |} m.

(** *** Histories of calls between [BeginReconstruction] and
    [EndReconstruction] *)
Inductive mapper_call : Type :=
  | CallFindInitialImagePair (options : Options)
  | CallRegisterInitialImagePair (options : Options)
      (image_id1 image_id2 : image_t) (cam2_from_cam1 : Rigid3d)
  | CallRegisterNextImage (options : Options) (image_id : image_t)
  | CallFilterFrames (options : Options)
  | CallFilterPoints (options : Options)
  | CallUpdateScene (points : gmap point3D_t Point3D) (g : Geometry)
  | CallResetInitializationStats.

Definition state_of {A} (x : result (IncrementalMapper * A))
    : result IncrementalMapper :=
  match x with
  | Returned (m, _) => Returned m
  | Thrown e => Thrown e
  end.

Definition exec (c : mapper_call) (m : IncrementalMapper)
    : result IncrementalMapper :=
  match c with
  | CallFindInitialImagePair o => state_of (FindInitialImagePair o m)
  | CallRegisterInitialImagePair o i1 i2 p =>
      RegisterInitialImagePair o i1 i2 p m
  | CallRegisterNextImage o i => state_of (RegisterNextImage o i m)
  | CallFilterFrames o => state_of (FilterFrames o m)
  | CallFilterPoints o => state_of (FilterPoints o m)
  | CallUpdateScene ps g => UpdateScene ps g m
  | CallResetInitializationStats => Returned (ResetInitializationStats m)
  end.

(** A history runs until a contract violation aborts it. *)
Fixpoint run (cs : list mapper_call) (m : IncrementalMapper)
    : result IncrementalMapper :=
  match cs with
  | [] => Returned m
  | c :: cs' =>
      match exec c m with
      | Returned m' => run cs' m'
      | Thrown e => Thrown e
      end
  end.

(** The call is a [RegisterNextImage] of [i] that returns [false]. *)
Definition failed_registration (i : image_t) (c : mapper_call)
    (m : IncrementalMapper) : bool :=
  match c with
  | CallRegisterNextImage o i' =>
      bool_decide (i' = i)
      && match RegisterNextImage o i' m with
         | Returned (_, false) => true
         | _ => false
         end
  | _ => false
  end.

(** The number of failed [RegisterNextImage] attempts on [i] in a history. *)
Fixpoint failed_attempts (i : image_t) (cs : list mapper_call)
    (m : IncrementalMapper) : nat :=
  match cs with
  | [] => 0
  | c :: cs' =>
      match exec c m with
      | Returned m' =>
          ((if failed_registration i c m then 1 else 0)
           + failed_attempts i cs' m')%nat
      | Thrown _ => 0%nat
      end
  end.

(** *** What the registration events keep track of *)

(** Two statistics agree on the registrations: same totals, same number of
    registrations of every image. *)
Definition stats_agree (s s' : RegistrationStatistics) : Prop :=
  num_total_reg_images s = num_total_reg_images s'
  ∧ num_shared_reg_images s = num_shared_reg_images s'
  ∧ ∀ i, count_at i (num_registrations s) = count_at i (num_registrations s').

(** The images of a list of frames. *)
Definition images_of_frames (frames : list frame_t) : list image_t :=
  frames ≫= frame_images database_cache_.

(** The statistics [s] are the statistics [s0] from before the
    reconstruction, with one registration for every image of the frames
    [frames] registered in it. *)
Definition registrations_tracked (s0 : RegistrationStatistics)
    (frames : gset frame_t) (s : RegistrationStatistics) : Prop :=
  stats_agree s (foldr register_image s0 (images_of_frames (elements frames))).

(** The mapper works on a reconstruction and its statistics track the
    registrations of that reconstruction's frames. *)
Definition mapper_tracked (s0 : RegistrationStatistics)
    (m : IncrementalMapper) : Prop :=
  ∃ r, reconstruction_ m = Some r
       ∧ registrations_tracked s0 (reg_frame_ids r) (reg_stats_ m).

End Mapper.

Arguments mk_reconstruction {Geometry} reg_frame_ids points3D geometry.
Arguments reg_frame_ids {Geometry} r.
Arguments points3D {Geometry} r.
Arguments geometry {Geometry} r.
Arguments mk_two_view {Rigid3d} tv_num_inliers tv_error tv_forward_motion
  tv_tri_angle tv_cam2_from_cam1.
Arguments tv_num_inliers {Rigid3d} t.
Arguments tv_error {Rigid3d} t.
Arguments tv_forward_motion {Rigid3d} t.
Arguments tv_tri_angle {Rigid3d} t.
Arguments tv_cam2_from_cam1 {Rigid3d} t.
Arguments mk_mapper {Geometry} reconstruction_ reg_stats_ filtered_frames_
  existing_frame_ids_.
Arguments reconstruction_ {Geometry} i.
Arguments reg_stats_ {Geometry} i.
Arguments filtered_frames_ {Geometry} i.
Arguments existing_frame_ids_ {Geometry} i.
Arguments set_reg_stats {Geometry} s m.
Arguments set_reconstruction {Geometry} r m.
Arguments suitable_for_initialization {Rigid3d} options g.
Arguments CallFindInitialImagePair {Geometry Rigid3d} options.
Arguments CallRegisterInitialImagePair {Geometry Rigid3d} options image_id1
  image_id2 cam2_from_cam1.
Arguments CallRegisterNextImage {Geometry Rigid3d} options image_id.
Arguments CallFilterFrames {Geometry Rigid3d} options.
Arguments CallFilterPoints {Geometry Rigid3d} options.
Arguments CallUpdateScene {Geometry Rigid3d} points g.
Arguments CallResetInitializationStats {Geometry Rigid3d}.

(** *** A small scene to evaluate the mapper on

    Three images, one per frame, one rig and one camera; the correspondence
    graph has the single pair (1, 2). Geometry and poses are left as
    labels. *)
Definition example_database : DatabaseCache :=
  {| images := [1; 2; 3]%N;
     image_frame := fun i => i;
     frame_images := fun f => [f];
     frame_rig := fun _ => 1%N;
     image_camera := fun _ => 1%N;
     image_pairs := [(1, 2)%N] |}.

(** A two-view estimator that reports the given number of inliers, with an
    error of 1 pixel, forward motion 1/2 and a triangulation angle of 20
    degrees. *)
Definition example_two_view (inliers : Z)
    : Options → image_t → image_t → TwoViewGeometry nat :=
  fun _ _ _ =>
    {| tv_num_inliers := inliers; tv_error := 1 # 1;
       tv_forward_motion := 1 # 2; tv_tri_angle := 20 # 1;
       tv_cam2_from_cam1 := 0%nat |}.

(** An absolute pose estimator that finds enough inliers for image 3 only. *)
Definition example_abs_pose
    : Options → Reconstruction nat → image_t → AbsolutePose :=
  fun _ _ i =>
    if (i =? 3)%N then
      {| ap_num_inliers := 50; ap_inlier_ratio := 1 # 2; ap_error := 1 # 1 |}
    else
      {| ap_num_inliers := 5; ap_inlier_ratio := 1 # 10; ap_error := 1 # 1 |}.

(** The scene left as it is by registration. *)
Definition example_register
    : Options → Reconstruction nat → image_t → gmap point3D_t Point3D * nat :=
  fun _ r _ => (points3D r, geometry r).

Definition example_seed
    : Options → Reconstruction nat → image_t → image_t → nat →
      gmap point3D_t Point3D * nat :=
  fun _ r _ _ _ => (points3D r, geometry r).

Definition example_degenerate
    : Options → Reconstruction nat → frame_t → bool :=
  fun _ _ _ => false.

(** The reprojection error of an observation, here 3 pixels for point 1 and
    9 pixels for any other point. *)
Definition example_reproj_error : nat → point3D_t → TrackElement → Q :=
  fun _ point3D_id _ => if (point3D_id =? 1)%N then 3 # 1 else 9 # 1.

Definition example_tri_angle : nat → point3D_t → Q := fun _ _ => 10 # 1.

Definition example_score : Reconstruction nat → image_t → Q :=
  fun _ i => Z.of_N i # 1.

(** Two points: point 1 seen by images 1 and 2, point 2 seen by images 2
    and 3. *)
Definition example_points : gmap point3D_t Point3D :=
  {[ 1%N := {| error := 1 # 2;
               track := [mk_track_el 1 10; mk_track_el 2 20] |};
     2%N := {| error := 3 # 2;
               track := [mk_track_el 2 21; mk_track_el 3 30] |} ]}.

(** A scene in which frame 1 is registered. *)
Definition example_reconstruction : Reconstruction nat :=
  {| reg_frame_ids := {[1%N]}; points3D := example_points; geometry := 0%nat |}.

(** An idle mapper that has kept an earlier reconstruction in which images 1
    and 3 were registered. *)
Definition example_idle_mapper : IncrementalMapper nat :=
  {| reconstruction_ := None;
     reg_stats_ :=
       {| num_total_reg_images := 2; num_shared_reg_images := 0;
          init_num_reg_trials := ∅; init_image_pairs := ∅;
          num_reg_frames_per_rig := {[1%N := 2%nat]};
          num_reg_images_per_camera := {[1%N := 2%nat]};
          num_registrations := {[1%N := 1%nat; 3%N := 1%nat]};
          num_reg_trials := ∅ |};
     filtered_frames_ := ∅; existing_frame_ids_ := ∅ |}.

Definition example_run : list (mapper_call nat nat) → IncrementalMapper nat →
    result (IncrementalMapper nat) :=
  run nat nat example_database (example_two_view 120) example_abs_pose
      example_register example_seed example_degenerate example_reproj_error
      example_tri_angle.

(** What a call returned, or the given mapper when it raised. *)
Definition returned_or {E} (default_ : IncrementalMapper nat)
    (x : outcome E (IncrementalMapper nat)) : IncrementalMapper nat :=
  match x with
  | Returned m => m
  | Thrown _ => default_
  end.

(** A reconstruction begun by the idle mapper. *)
Definition example_begun : IncrementalMapper nat :=
  returned_or example_idle_mapper
    (BeginReconstruction nat example_database example_reconstruction
       example_idle_mapper).

(** Four attempts to register image 2, which the estimator rejects. *)
Definition example_four_attempts : list (mapper_call nat nat) :=
  [CallRegisterNextImage Options_default 2%N;
   CallRegisterNextImage Options_default 2%N;
   CallRegisterNextImage Options_default 2%N;
   CallRegisterNextImage Options_default 2%N].

Definition example_after_attempts : IncrementalMapper nat :=
  returned_or example_begun (example_run example_four_attempts example_begun).

(** Later calls: the points are filtered, the initialisation statistics are
    reset and the scene is searched for an initial pair. *)
Definition example_later_calls : list (mapper_call nat nat) :=
  [CallFilterPoints Options_default;
   CallResetInitializationStats;
   CallFindInitialImagePair Options_default].

Definition example_after_later_calls : IncrementalMapper nat :=
  returned_or example_begun
    (example_run example_later_calls example_after_attempts).

(** A longer history, in which image 3 gets registered as well. *)
Definition example_work : list (mapper_call nat nat) :=
  example_four_attempts
  ++ [CallRegisterNextImage Options_default 3%N;
      CallFilterPoints Options_default].

Definition example_worked : IncrementalMapper nat :=
  returned_or example_begun (example_run example_work example_begun).

(** A scene in which nothing is registered yet. *)
Definition example_empty_scene : Reconstruction nat :=
  {| reg_frame_ids := ∅; points3D := ∅; geometry := 0%nat |}.

(** One reconstruction from an empty scene: begun, worked on by the given
    calls, ended. *)
Definition example_cycle (discard : bool) (cs : list (mapper_call nat nat))
    (m : IncrementalMapper nat) : IncrementalMapper nat :=
  let begun := returned_or m
                 (BeginReconstruction nat example_database example_empty_scene
                    m) in
  let worked := returned_or begun (example_run cs begun) in
  returned_or worked (EndReconstruction nat example_database discard worked).

(** A mapper that has committed two reconstructions, each seeded with images
    1 and 2: both images are shared. *)
Definition example_committed_twice : IncrementalMapper nat :=
  example_cycle false
    [CallRegisterInitialImagePair Options_default 1%N 2%N 0%nat]
    (example_cycle false
       [CallRegisterInitialImagePair Options_default 1%N 2%N 0%nat]
       (IncrementalMapper_new nat)).

(** A third reconstruction begun by it, and discarded at once. *)
Definition example_rebegun : IncrementalMapper nat :=
  returned_or example_committed_twice
    (BeginReconstruction nat example_database example_empty_scene
       example_committed_twice).

Definition example_discarded : IncrementalMapper nat :=
  returned_or example_rebegun
    (EndReconstruction nat example_database true example_rebegun).

End MapperModel.

(** ** Part II': histories of rig calls and the printing of a rig
    (colmap/scene/rig.cc) *)

Module RigExtras.

Import RigModel.

Section RigHistory.
Context {SensorType : Type} `{Countable SensorType}.
Variable Rigid3d : Type.
Variable kInvalidSensorId : sensor_t (SensorType := SensorType).

(** The call returns on the rig (no [THROW_CHECK] raises). *)
Definition returns (c : call Rigid3d)
    (r : Rig (SensorType := SensorType) Rigid3d) : bool :=
  negb (is_thrown (exec kInvalidSensorId c r).2).

(** The calls of a history that returned, in their order. *)
Fixpoint returned_calls (cs : list (call Rigid3d))
    (r : Rig (SensorType := SensorType) Rigid3d) : list (call Rigid3d) :=
  match cs with
  | [] => []
  | c :: cs' =>
      if returns c r
      then c :: returned_calls cs' (after kInvalidSensorId r c)
      else returned_calls cs' (after kInvalidSensorId r c)
  end.

(** The call names a sensor to add: any [AddSensor], and an [AddRefSensor]
    unless it passes the sentinel. *)
Definition names_a_sensor (c : call Rigid3d) : bool :=
  match c with
  | CallAddRefSensor i => negb (bool_decide (i = kInvalidSensorId))
  | CallAddSensor _ _ => true
  end.

(** The usual way to fill a rig: the reference sensor first, then the other
    sensors with their poses. *)
Definition build_calls (ref_sensor_id : sensor_t (SensorType := SensorType))
    (others : list (sensor_t (SensorType := SensorType) * option Rigid3d))
    : list (call Rigid3d) :=
  CallAddRefSensor ref_sensor_id
  :: map (fun ip => CallAddSensor ip.1 ip.2) others.

End RigHistory.

Arguments returns {SensorType _ _ Rigid3d} kInvalidSensorId c r.
Arguments returned_calls {SensorType _ _ Rigid3d} kInvalidSensorId cs r.
Arguments names_a_sensor {SensorType _ Rigid3d} kInvalidSensorId c.
Arguments build_calls {SensorType Rigid3d} ref_sensor_id others.

Section RigStream.
Context {SensorType : Type} `{Countable SensorType}.
Variable Rigid3d : Type.

(** How a sensor type is streamed, and the sentinel of an unset rig id: both
    are declared in headers that are not among the sources. *)
Variable show_SensorType : SensorType → string.
Variable kInvalidRigId : N.

(** The loop of [operator<<] over the sensors, on the keys in the order the
    map is iterated: each key is streamed as "(type, id)", and ", " follows
    when the advanced iterator is not the end. Ids are streamed in
    decimal. *)
Fixpoint stream_sensors (keys : list (sensor_t (SensorType := SensorType)))
    : string :=
  match keys with
  | [] => ""
  | key :: rest =>
      "(" +:+ show_SensorType (type key) +:+ ", " +:+ pretty (id key) +:+ ")"
      +:+ (match rest with [] => "" | _ :: _ => ", " end)
      +:+ stream_sensors rest
  end.

(** rig.cc, [operator<<(std::ostream&, const Rig&)]: what is appended to the
    stream, for a rig with the given rig id whose sensors are iterated in the
    order [keys]. *)
Definition stream_Rig (rig_id : N)
    (rig : Rig (SensorType := SensorType) Rigid3d)
    (keys : list (sensor_t (SensorType := SensorType))) : string :=
  let rig_id_str :=
    if decide (rig_id ≠ kInvalidRigId) then pretty rig_id else "Invalid" in
  "Rig(rig_id=" +:+ rig_id_str +:+ ", ref_sensor_id=("
  +:+ show_SensorType (type (ref_sensor_id_ rig)) +:+ ", "
  +:+ pretty (id (ref_sensor_id_ rig)) +:+ "), sensors=["
  +:+ stream_sensors keys +:+ "])".

(** One sensor as the loop prints it. *)
Definition show_sensor (key : sensor_t (SensorType := SensorType)) : string :=
  "(" +:+ show_SensorType (type key) +:+ ", " +:+ pretty (id key) +:+ ")".

End RigStream.

Arguments stream_sensors {SensorType} show_SensorType keys.
Arguments stream_Rig {SensorType _ _ Rigid3d} show_SensorType kInvalidRigId
  rig_id rig keys.
Arguments show_sensor {SensorType} show_SensorType key.

(** Sensor types of the example rig printed as their number. *)
Definition example_show_type (t : Z) : string := pretty t.

End RigExtras.

(** ** Part III: properties of the rig container *)

Module RigProperties.

Import RigModel.

Section RigFacts.
Context {SensorType : Type} `{Countable SensorType}.
Variable Rigid3d : Type.
Local Abbreviation sensor_t := (@RigModel.sensor_t SensorType).
Variable kInvalidSensorId : sensor_t.

Local Abbreviation Rig := (Rig (SensorType := SensorType) Rigid3d).
Local Abbreviation Rig_new := (Rig_new Rigid3d kInvalidSensorId).
Local Abbreviation NumSensors := (NumSensors kInvalidSensorId).
Local Abbreviation AddRefSensor := (AddRefSensor kInvalidSensorId).
Local Abbreviation AddSensor := (AddSensor kInvalidSensorId).
Local Abbreviation run := (run kInvalidSensorId).
Local Abbreviation after := (after kInvalidSensorId).
Local Abbreviation unset_means_empty := (unset_means_empty kInvalidSensorId).

(** Both member functions, with the monad unfolded. *)
Lemma AddRefSensor_eq (i : sensor_t) (r : Rig) :
  AddRefSensor i r =
  if bool_decide (ref_sensor_id_ r = kInvalidSensorId)
  then (mk_rig i (sensors_from_rig_ r), Returned tt)
  else (r, Thrown RefSensorAlreadySet).
Proof.
  unfold RigModel.AddRefSensor, bind, this, THROW_CHECK, assign.
  by destruct (bool_decide _).
Qed.

Lemma AddSensor_eq (i : sensor_t) (p : option Rigid3d) (r : Rig) :
  AddSensor i p r =
  if bool_decide (1 ≤ NumSensors r)%nat then
    if HasSensor i r
    then (r, Thrown (SensorInsertedTwice (type i) (id i)))
    else (mk_rig (ref_sensor_id_ r)
                 (emplace i p (sensors_from_rig_ r)), Returned tt)
  else (r, Thrown RefSensorNeededFirst).
Proof.
  unfold RigModel.AddSensor, bind, this, THROW_CHECK, assign.
  destruct (bool_decide _); [|done]. by destruct (HasSensor i r).
Qed.

(** Once added, a sensor is found. *)
Lemma HasSensor_emplace (i : sensor_t) (p : option Rigid3d) (r : Rig) :
  HasSensor i (mk_rig (ref_sensor_id_ r)
                        (emplace i p (sensors_from_rig_ r))) = true.
Proof.
  unfold HasSensor, emplace; simpl.
  apply orb_true_iff; right. apply bool_decide_eq_true.
  destruct (sensors_from_rig_ r !! i) eqn:E.
  - by rewrite E.
  - by rewrite lookup_insert_eq.
Qed.

Lemma NumSensors_ref_set (r : Rig) :
  ref_sensor_id_ r ≠ kInvalidSensorId → (1 ≤ NumSensors r)%nat.
Proof. intros Hr. unfold RigModel.NumSensors. case_decide; [done|lia]. Qed.

Lemma unset_means_empty_after (r : Rig) (c : call Rigid3d) :
  unset_means_empty r → unset_means_empty (after r c).
Proof.
  intros Hr. unfold RigModel.after. destruct c as [i|i p]; simpl.
  - rewrite AddRefSensor_eq. case_bool_decide as Hc; [|done].
    intros _; simpl. by apply Hr.
  - rewrite AddSensor_eq. case_bool_decide as Hn; [|done].
    destruct (HasSensor i r); [done|].
    intros Hu; simpl in *. exfalso.
    unfold RigModel.NumSensors in Hn. rewrite (Hr Hu) in Hn.
    rewrite decide_True in Hn by done. rewrite map_size_empty in Hn. lia.
Qed.

Lemma unset_means_empty_run (cs : list (call Rigid3d)) (r : Rig) :
  unset_means_empty r → unset_means_empty (run cs r).
Proof.
  revert r. induction cs as [|c cs IH]; intros r Hr; [done|].
  simpl. apply IH. by apply unset_means_empty_after.
Qed.

(** Without a call of [AddRefSensor] the reference sensor stays unset. *)
Lemma no_AddRefSensor_unset (cs : list (call Rigid3d)) (r : Rig) :
  no_AddRefSensor cs = true →
  ref_sensor_id_ r = kInvalidSensorId →
  ref_sensor_id_ (run cs r) = kInvalidSensorId.
Proof.
  revert r. induction cs as [|c cs IH]; intros r Hcs Hr; [done|].
  simpl in Hcs. apply andb_true_iff in Hcs as [Hc Hcs].
  simpl. apply IH; [done|].
  destruct c as [i|i p]; [done|].
  unfold RigModel.after; simpl. rewrite AddSensor_eq.
  destruct (bool_decide _); [|done]. by destruct (HasSensor i r).
Qed.

Lemma AddSensor_unset_throws (r : Rig) (i : sensor_t) (p : option Rigid3d) :
  unset_means_empty r →
  ref_sensor_id_ r = kInvalidSensorId →
  (AddSensor i p r).2 = Thrown RefSensorNeededFirst.
Proof.
  intros Hinv Hr. rewrite AddSensor_eq.
  rewrite bool_decide_eq_false_2; [done|].
  unfold RigModel.NumSensors. rewrite (Hinv Hr), decide_True by done.
  rewrite map_size_empty. lia.
Qed.

(** C1. On a rig on which [AddRefSensor] has not been called, or more
    generally on any rig reached from construction whose reference sensor is
    still unset, [AddSensor] raises "The reference sensor needs to be added
    first before other sensors", for every sensor id and every optional
    pose. *)
Theorem AddSensor_before_AddRefSensor_throws
    (cs : list (call Rigid3d)) (sensor_id : sensor_t)
    (sensor_from_rig : option Rigid3d) :
  no_AddRefSensor cs = true
  ∨ ref_sensor_id_ (run cs Rig_new) = kInvalidSensorId →
  (AddSensor sensor_id sensor_from_rig (run cs Rig_new)).2
  = Thrown RefSensorNeededFirst.
Proof.
  intros Hcs. apply AddSensor_unset_throws.
  - apply unset_means_empty_run. by intros _.
  - destruct Hcs as [Hcs|Hcs]; [|done]. by apply no_AddRefSensor_unset.
Qed.

(** C2. On a rig whose reference sensor is set, the second of two
    [AddSensor] calls with the same sensor id raises "Sensor ... is inserted
    twice into the rig", whatever the poses, and also when the id is the
    reference sensor's. *)
Theorem AddSensor_twice_throws (r : Rig) (sensor_id : sensor_t)
    (pose1 pose2 : option Rigid3d) :
  ref_sensor_id_ r ≠ kInvalidSensorId →
  (AddSensor sensor_id pose2 (AddSensor sensor_id pose1 r).1).2
  = Thrown (SensorInsertedTwice (type sensor_id) (id sensor_id)).
Proof.
  intros Hr. rewrite (AddSensor_eq sensor_id pose1 r).
  rewrite bool_decide_eq_true_2 by by apply NumSensors_ref_set.
  destruct (HasSensor sensor_id r) eqn:Hhas; simpl.
  - rewrite AddSensor_eq.
    rewrite bool_decide_eq_true_2 by by apply NumSensors_ref_set.
    by rewrite Hhas.
  - rewrite AddSensor_eq.
    rewrite bool_decide_eq_true_2 by by apply NumSensors_ref_set.
    by rewrite HasSensor_emplace.
Qed.

(** The same without any assumption on the rig: the second call always
    raises. *)
Lemma AddSensor_twice_always_throws (r : Rig) (sensor_id : sensor_t)
    (pose1 pose2 : option Rigid3d) :
  is_thrown (AddSensor sensor_id pose2 (AddSensor sensor_id pose1 r).1).2
  = true.
Proof.
  rewrite (AddSensor_eq sensor_id pose1 r).
  case_bool_decide as Hn; simpl.
  - destruct (HasSensor sensor_id r) eqn:Hhas; simpl.
    + rewrite AddSensor_eq, bool_decide_eq_true_2, Hhas by done. done.
    + rewrite AddSensor_eq, HasSensor_emplace.
      by destruct (bool_decide _).
  - rewrite AddSensor_eq, bool_decide_eq_false_2 by done. done.
Qed.

(** A set reference sensor stays set, and stays the same. *)
Lemma ref_sensor_kept_after (r : Rig) (c : call Rigid3d) :
  ref_sensor_id_ r ≠ kInvalidSensorId →
  ref_sensor_id_ (after r c) = ref_sensor_id_ r.
Proof.
  intros Hr. unfold RigModel.after. destruct c as [i|i p]; simpl.
  - by rewrite AddRefSensor_eq, bool_decide_eq_false_2.
  - rewrite AddSensor_eq. destruct (bool_decide _); [|done].
    by destruct (HasSensor i r).
Qed.

Lemma ref_sensor_kept_run (cs : list (call Rigid3d)) (r : Rig) :
  ref_sensor_id_ r ≠ kInvalidSensorId →
  ref_sensor_id_ (run cs r) = ref_sensor_id_ r.
Proof.
  revert r. induction cs as [|c cs IH]; intros r Hr; [done|].
  simpl. rewrite IH; rewrite ref_sensor_kept_after; done.
Qed.

(** C3, amended. On a new rig [AddRefSensor] returns and sets the reference
    sensor id to the given id; if that id is not the sentinel
    [kInvalidSensorId], every later [AddRefSensor] on the rig raises
    "Reference sensor already set", whatever id is passed and whatever was
    called in between. *)
Theorem AddRefSensor_once (ref_sensor_id : sensor_t) :
  AddRefSensor ref_sensor_id Rig_new
  = (mk_rig ref_sensor_id ∅, Returned tt)
  ∧ (ref_sensor_id ≠ kInvalidSensorId →
     ∀ (cs : list (call Rigid3d)) (other : sensor_t),
       (AddRefSensor other (run cs (AddRefSensor ref_sensor_id Rig_new).1)).2
       = Thrown RefSensorAlreadySet).
Proof.
  assert (Hfirst : AddRefSensor ref_sensor_id Rig_new
                   = (mk_rig ref_sensor_id ∅, Returned tt)).
  { by rewrite AddRefSensor_eq, bool_decide_eq_true_2. }
  split; [done|]. intros Hid cs other. rewrite Hfirst; simpl.
  rewrite AddRefSensor_eq, bool_decide_eq_false_2; [done|].
  by rewrite ref_sensor_kept_run.
Qed.

(** Why the amendment: passing the sentinel leaves the reference sensor
    unset, and the next [AddRefSensor] returns as well. *)
Lemma AddRefSensor_sentinel_twice (other : sensor_t) :
  (AddRefSensor other (AddRefSensor kInvalidSensorId Rig_new).1)
  = (mk_rig other ∅, Returned tt).
Proof.
  rewrite (AddRefSensor_eq kInvalidSensorId), bool_decide_eq_true_2 by done.
  simpl. by rewrite AddRefSensor_eq, bool_decide_eq_true_2.
Qed.

(** C10. A raised check leaves the rig as it was: when [AddRefSensor] or
    [AddSensor] raises, the rig after the call (reference sensor id and
    sensor map) is the rig before it. *)
Theorem rig_calls_atomic_on_failure (r : Rig) (sensor_id : sensor_t)
    (sensor_from_rig : option Rigid3d) :
  (is_thrown (AddRefSensor sensor_id r).2 = true →
   (AddRefSensor sensor_id r).1 = r)
  ∧ (is_thrown (AddSensor sensor_id sensor_from_rig r).2 = true →
     (AddSensor sensor_id sensor_from_rig r).1 = r).
Proof.
  split.
  - rewrite AddRefSensor_eq. by destruct (bool_decide _).
  - rewrite AddSensor_eq. destruct (bool_decide _); [|done].
    by destruct (HasSensor sensor_id r).
Qed.

End RigFacts.

(** Instances of the theorems above on the example rig. *)

Lemma AddSensor_before_AddRefSensor_throws_witness :
  (AddSensor example_invalid_sensor (example_camera 2) (Some 7%nat)
     (run example_invalid_sensor [CallAddSensor (example_camera 1) None]
          (Rig_new nat example_invalid_sensor))).2
  = Thrown RefSensorNeededFirst.
Proof.
  apply (AddSensor_before_AddRefSensor_throws nat example_invalid_sensor
           [CallAddSensor (example_camera 1) None]).
  left. reflexivity.
Defined.

Lemma AddSensor_twice_throws_witness :
  (AddSensor example_invalid_sensor (example_camera 2) None
     (AddSensor example_invalid_sensor (example_camera 2) (Some 7%nat)
                example_rig).1).2
  = Thrown (SensorInsertedTwice 0 2).
Proof.
  apply (AddSensor_twice_throws nat example_invalid_sensor example_rig
           (example_camera 2) (Some 7%nat) None).
  unfold example_rig, example_camera, example_invalid_sensor; simpl.
  discriminate.
Defined.

Lemma AddRefSensor_once_witness :
  (AddRefSensor example_invalid_sensor (example_camera 3)
     (run example_invalid_sensor [CallAddSensor (example_camera 2) None]
        (AddRefSensor example_invalid_sensor (example_camera 1)
           (Rig_new nat example_invalid_sensor)).1)).2
  = Thrown RefSensorAlreadySet.
Proof.
  apply (proj2 (AddRefSensor_once nat example_invalid_sensor
                  (example_camera 1))).
  unfold example_camera, example_invalid_sensor. discriminate.
Defined.

(** C3 as stated fails when the first call passes the sentinel: the call
    returns, the reference sensor is as unset as before, and a second
    [AddRefSensor] returns too. *)
Lemma AddRefSensor_sentinel_counterexample :
  let first_call := AddRefSensor example_invalid_sensor example_invalid_sensor
                      (Rig_new nat example_invalid_sensor) in
  let second_call := AddRefSensor example_invalid_sensor (example_camera 1)
                       first_call.1 in
  first_call.2 = Returned tt
  ∧ second_call.2 = Returned tt
  ∧ ref_sensor_id_ second_call.1 = example_camera 1.
Proof. vm_compute. done. Qed.

Lemma rig_calls_atomic_on_failure_witness :
  (AddRefSensor example_invalid_sensor (example_camera 1) example_rig).1
  = example_rig
  ∧ (AddSensor example_invalid_sensor (example_camera 1) (Some 7%nat)
       example_rig).1
    = example_rig.
Proof.
  destruct (rig_calls_atomic_on_failure nat example_invalid_sensor
              example_rig (example_camera 1) (Some 7%nat)) as [Href Hadd].
  split; [apply Href | apply Hadd]; reflexivity.
Defined.

End RigProperties.

(** ** Part IV: properties of the incremental mapper *)

Module MapperProperties.

Import RigModel MapperModel.

Set Default Proof Using "Type".

Section MapperFacts.
Variable Geometry : Type.
Variable Rigid3d : Type.
Variable database_cache_ : DatabaseCache.
Variable EstimateTwoViewGeometry :
  Options → image_t → image_t → TwoViewGeometry Rigid3d.
Variable EstimateAbsolutePose :
  Options → Reconstruction Geometry → image_t → AbsolutePose.
Variable RegisterAndTriangulate :
  Options → Reconstruction Geometry → image_t →
  gmap point3D_t Point3D * Geometry.
Variable SeedAndTriangulate :
  Options → Reconstruction Geometry → image_t → image_t → Rigid3d →
  gmap point3D_t Point3D * Geometry.
Variable num_visible_points3D : Reconstruction Geometry → image_t → Q.
Variable visible_points3D_ratio : Reconstruction Geometry → image_t → Q.
Variable pose_uncertainty : Reconstruction Geometry → image_t → Q.
Variable has_degenerate_pose :
  Options → Reconstruction Geometry → frame_t → bool.
Variable reproj_error : Geometry → point3D_t → TrackElement → Q.
Variable tri_angle : Geometry → point3D_t → Q.

Local Abbreviation Mapper := (IncrementalMapper Geometry).
Local Abbreviation register_image := (register_image database_cache_).
Local Abbreviation deregister_image := (deregister_image database_cache_).
Local Abbreviation RegisterFrameEvent := (RegisterFrameEvent database_cache_).
Local Abbreviation DeRegisterFrameEvent :=
  (DeRegisterFrameEvent database_cache_).
Local Abbreviation BeginReconstruction :=
  (BeginReconstruction Geometry database_cache_).
Local Abbreviation EndReconstruction :=
  (EndReconstruction Geometry database_cache_).
Local Abbreviation EstimateInitialTwoViewGeometry :=
  (EstimateInitialTwoViewGeometry Rigid3d EstimateTwoViewGeometry).
Local Abbreviation search_initial_pair :=
  (search_initial_pair Rigid3d EstimateTwoViewGeometry).
Local Abbreviation FindInitialImagePair :=
  (FindInitialImagePair Geometry Rigid3d database_cache_
     EstimateTwoViewGeometry).
Local Abbreviation register_frame := (register_frame database_cache_).
Local Abbreviation RegisterInitialImagePair :=
  (RegisterInitialImagePair Geometry Rigid3d database_cache_
     SeedAndTriangulate).
Local Abbreviation next_image_candidate :=
  (next_image_candidate Geometry database_cache_).
Local Abbreviation FindNextImages :=
  (FindNextImages Geometry database_cache_ num_visible_points3D
     visible_points3D_ratio pose_uncertainty).
Local Abbreviation RegisterNextImage :=
  (RegisterNextImage Geometry database_cache_ EstimateAbsolutePose
     RegisterAndTriangulate).
Local Abbreviation FilterFrames :=
  (FilterFrames Geometry database_cache_ has_degenerate_pose).
Local Abbreviation point_kept := (point_kept Geometry reproj_error tri_angle).
Local Abbreviation FilterPoints :=
  (FilterPoints Geometry reproj_error tri_angle).
Local Abbreviation UpdateScene := (UpdateScene Geometry).
Local Abbreviation exec :=
  (exec Geometry Rigid3d database_cache_ EstimateTwoViewGeometry
     EstimateAbsolutePose RegisterAndTriangulate SeedAndTriangulate
     has_degenerate_pose reproj_error tri_angle).
Local Abbreviation run :=
  (run Geometry Rigid3d database_cache_ EstimateTwoViewGeometry
     EstimateAbsolutePose RegisterAndTriangulate SeedAndTriangulate
     has_degenerate_pose reproj_error tri_angle).
Local Abbreviation failed_registration :=
  (failed_registration Geometry Rigid3d database_cache_ EstimateAbsolutePose
     RegisterAndTriangulate).
Local Abbreviation failed_attempts :=
  (failed_attempts Geometry Rigid3d database_cache_ EstimateTwoViewGeometry
     EstimateAbsolutePose RegisterAndTriangulate SeedAndTriangulate
     has_degenerate_pose reproj_error tri_angle).
Local Abbreviation images_of_frames := (images_of_frames database_cache_).
Local Abbreviation registrations_tracked :=
  (registrations_tracked database_cache_).

(** Propositional goals are closed without looking at the external
    estimators, whose function types read as implications. *)
Ltac prop_tauto :=
  try clear EstimateTwoViewGeometry; try clear EstimateAbsolutePose;
  try clear RegisterAndTriangulate; try clear SeedAndTriangulate;
  try clear num_visible_points3D; try clear visible_points3D_ratio;
  try clear pose_uncertainty; try clear has_degenerate_pose;
  try clear reproj_error; try clear tri_angle;
  tauto.

(** *** The initial pair *)

Lemma suitable_for_initialization_iff (options : Options)
    (g : TwoViewGeometry Rigid3d) :
  suitable_for_initialization options g = true ↔
  (init_min_num_inliers options ≤ tv_num_inliers g)%Z
  ∧ (tv_error g <= init_max_error options)%Q
  ∧ (tv_forward_motion g <= init_max_forward_motion options)%Q
  ∧ (init_min_tri_angle options <= tv_tri_angle g)%Q.
Proof.
  unfold suitable_for_initialization.
  rewrite !andb_true_iff, Z.leb_le, !Qle_bool_iff. prop_tauto.
Qed.

Lemma EstimateInitialTwoViewGeometry_Some (options : Options)
    (i1 i2 : image_t) :
  is_Some (EstimateInitialTwoViewGeometry options i1 i2) ↔
  suitable_for_initialization options (EstimateTwoViewGeometry options i1 i2)
  = true.
Proof.
  unfold MapperModel.EstimateInitialTwoViewGeometry.
  destruct (suitable_for_initialization _ _); split; intros Hs;
    try done; by destruct Hs.
Qed.

(** A pair that the search returns is one of the pairs searched, and was
    accepted. *)
Lemma search_initial_pair_Some (options : Options)
    (pairs : list image_pair_t) (s s' : RegistrationStatistics)
    (i1 i2 : image_t) (pose : Rigid3d) :
  search_initial_pair options pairs s = (s', Some (i1, i2, pose)) →
  (i1, i2) ∈ pairs
  ∧ EstimateInitialTwoViewGeometry options i1 i2 = Some pose.
Proof.
  revert s. induction pairs as [|[a b] rest IH]; intros s; simpl; [done|].
  destruct (init_pair_skipped options s (a, b)).
  - intros [Hin He]%IH. split; [by right|done].
  - destruct (EstimateInitialTwoViewGeometry options a b) as [p|] eqn:Hab.
    + intros [= _ <- <- <-]. split; [by left|done].
    + intros [Hin He]%IH. split; [by right|done].
Qed.

(** When no pair is accepted, the search returns none. *)
Lemma search_initial_pair_None (options : Options)
    (pairs : list image_pair_t) (s : RegistrationStatistics) :
  (∀ pr, pr ∈ pairs →
         EstimateInitialTwoViewGeometry options pr.1 pr.2 = None) →
  (search_initial_pair options pairs s).2 = None.
Proof.
  revert s. induction pairs as [|pr rest IH]; intros s Hnone; simpl; [done|].
  assert (Hrest : ∀ q, q ∈ rest →
            EstimateInitialTwoViewGeometry options q.1 q.2 = None).
  { intros q Hq. apply Hnone. by right. }
  destruct (init_pair_skipped options s pr); [by apply IH|].
  rewrite (Hnone pr) by by left. by apply IH.
Qed.

(** The first pair, when it is not skipped, is returned exactly when it is
    accepted. *)
Lemma search_initial_pair_first (options : Options) (pr : image_pair_t)
    (rest : list image_pair_t) (s : RegistrationStatistics) (pose : Rigid3d) :
  init_pair_skipped options s pr = false →
  EstimateInitialTwoViewGeometry options pr.1 pr.2 = Some pose →
  (search_initial_pair options (pr :: rest) s).2 = Some (pr.1, pr.2, pose).
Proof. intros Hskip He; simpl. by rewrite Hskip, He. Qed.

(** C8. A pair is accepted for initialisation if and only if its two-view
    geometry has at least [init_min_num_inliers] inliers, an error of at most
    [init_max_error], a forward motion of at most [init_max_forward_motion]
    and a triangulation angle of at least [init_min_tri_angle]. A pair
    returned by [FindInitialImagePair] is a candidate pair that was accepted;
    when no candidate pair is accepted it returns no pair; an accepted first
    candidate that is not skipped is the pair returned. With the default
    [init_min_num_inliers = 100], an estimate with 120 inliers that passes
    the other checks is accepted and one with 80 inliers is not. *)
Theorem FindInitialImagePair_acceptance (options : Options) :
  (∀ i1 i2 : image_t,
     is_Some (EstimateInitialTwoViewGeometry options i1 i2) ↔
     let g := EstimateTwoViewGeometry options i1 i2 in
     (init_min_num_inliers options ≤ tv_num_inliers g)%Z
     ∧ (tv_error g <= init_max_error options)%Q
     ∧ (tv_forward_motion g <= init_max_forward_motion options)%Q
     ∧ (init_min_tri_angle options <= tv_tri_angle g)%Q)
  ∧ (∀ (m m' : Mapper) (i1 i2 : image_t) (pose : Rigid3d),
       FindInitialImagePair options m = Returned (m', Some (i1, i2, pose)) →
       (i1, i2) ∈ image_pairs database_cache_
       ∧ EstimateInitialTwoViewGeometry options i1 i2 = Some pose)
  ∧ (∀ (m : Mapper),
       is_Some (reconstruction_ m) →
       (∀ pr, pr ∈ image_pairs database_cache_ →
              EstimateInitialTwoViewGeometry options pr.1 pr.2 = None) →
       ∃ m', FindInitialImagePair options m = Returned (m', None))
  ∧ (∀ (m : Mapper) (pr : image_pair_t) (rest : list image_pair_t)
       (pose : Rigid3d),
       is_Some (reconstruction_ m) →
       image_pairs database_cache_ = pr :: rest →
       init_pair_skipped options (reg_stats_ m) pr = false →
       EstimateInitialTwoViewGeometry options pr.1 pr.2 = Some pose →
       ∃ m', FindInitialImagePair options m
             = Returned (m', Some (pr.1, pr.2, pose)))
  ∧ (∀ g : TwoViewGeometry Rigid3d,
       (tv_error g <= 4 # 1)%Q → (tv_forward_motion g <= 95 # 100)%Q →
       (16 # 1 <= tv_tri_angle g)%Q →
       (tv_num_inliers g = 120 →
        suitable_for_initialization Options_default g = true)
       ∧ (tv_num_inliers g = 80 →
          suitable_for_initialization Options_default g = false)).
Proof.
  split; [|split; [|split; [|split]]].
  - intros i1 i2. rewrite EstimateInitialTwoViewGeometry_Some.
    apply suitable_for_initialization_iff.
  - intros m m' i1 i2 pose. unfold MapperModel.FindInitialImagePair.
    destruct (reconstruction_ m); [|done].
    intros [= _ Hfound]. apply (search_initial_pair_Some options _ (reg_stats_ m)
      (search_initial_pair options (image_pairs database_cache_)
         (reg_stats_ m)).1).
    rewrite <- Hfound. by destruct (search_initial_pair _ _ _).
  - intros m [r Hr] Hnone. unfold MapperModel.FindInitialImagePair.
    rewrite Hr. eexists. by rewrite search_initial_pair_None.
  - intros m pr rest pose [r Hr] Hpairs Hskip He.
    unfold MapperModel.FindInitialImagePair. rewrite Hr, Hpairs.
    eexists. by rewrite (search_initial_pair_first _ _ _ _ pose).
  - intros g Herr Hfwd Hang. split; intros Hn.
    + apply suitable_for_initialization_iff; simpl. rewrite Hn. by repeat split.
    + apply not_true_is_false.
      intros [Hin _]%suitable_for_initialization_iff. simpl in Hin. lia.
Qed.

(** *** Filtering points *)

Lemma point_kept_bound (options : Options) (g : Geometry) (i : point3D_t)
    (p : Point3D) (el : TrackElement) :
  point_kept options g i p = true → el ∈ track p →
  (reproj_error g i el <= filter_max_reproj_error options)%Q.
Proof.
  unfold MapperModel.point_kept. intros [Hall _]%andb_true_iff Hel.
  rewrite forallb_forall in Hall. apply Qle_bool_iff, Hall.
  by apply list_elem_of_In.
Qed.

(** C9. After [FilterPoints] has returned, every observation in the track of
    every point that remains in the reconstruction has a reprojection error
    of at most [filter_max_reproj_error]: none exceeds it. *)
Theorem FilterPoints_bounds_reproj_error (options : Options) (m m' : Mapper)
    (n : nat) (r' : Reconstruction Geometry) (point3D_id : point3D_t)
    (p : Point3D) (el : TrackElement) :
  FilterPoints options m = Returned (m', n) →
  reconstruction_ m' = Some r' →
  points3D r' !! point3D_id = Some p →
  el ∈ track p →
  (reproj_error (geometry r') point3D_id el
   <= filter_max_reproj_error options)%Q
  ∧ ¬ (filter_max_reproj_error options
       < reproj_error (geometry r') point3D_id el)%Q.
Proof.
  unfold MapperModel.FilterPoints. destruct (reconstruction_ m) as [r|]; [|done].
  intros [= <- _]; simpl. intros [= <-]; simpl.
  intros [Hp Hkept]%map_lookup_filter_Some Hel. simpl in Hkept.
  pose proof (point_kept_bound _ _ _ _ _ Hkept Hel) as Hle.
  split; [done|]. by apply Qle_not_lt.
Qed.

(** *** Merging tracks *)

(** C7. Merging two distinct points of the scene leaves one of the two, whose
    track holds exactly the observations of the two tracks, none dropped, and
    the merged observation set is the same whichever of the two is merged
    into the other. *)
Theorem MergePoints3D_union_commutative (points : gmap point3D_t Point3D)
    (id1 id2 : point3D_t) (p1 p2 : Point3D) :
  points !! id1 = Some p1 → points !! id2 = Some p2 → id1 ≠ id2 →
  ∃ k12 ps12 k21 ps21,
    MergePoints3D id1 id2 points = Some (k12, ps12)
    ∧ MergePoints3D id2 id1 points = Some (k21, ps21)
    ∧ (k12 = id1 ∧ ps12 !! id2 = None ∨ k12 = id2 ∧ ps12 !! id1 = None)
    ∧ (∀ el, observations_of ps12 k12 el ↔ el ∈ track p1 ∨ el ∈ track p2)
    ∧ (∀ el, observations_of ps12 k12 el ↔ observations_of ps21 k21 el).
Proof.
  intros H1 H2 Hne. unfold MergePoints3D.
  rewrite !decide_False by done. rewrite H1, H2.
  assert (Hobs : ∀ (k : point3D_t) (e : Q) (l : list TrackElement)
                   (ps : gmap point3D_t Point3D) el,
            observations_of (<[k := {| error := e; track := l |}]> ps) k el
            ↔ el ∈ l).
  { intros k e l ps el. unfold observations_of. rewrite lookup_insert_eq.
    split; [by intros (p & [= <-] & Hel)|]. intros Hel. by eexists. }
  destruct (Qle_bool (error p1) (error p2)),
           (Qle_bool (error p2) (error p1));
    do 4 eexists; (split; [reflexivity|]); (split; [reflexivity|]);
    (split;
     [first [left; split; [reflexivity|];
             by rewrite lookup_insert_ne, lookup_delete_eq
            |right; split; [reflexivity|];
             by rewrite lookup_insert_ne, lookup_delete_eq]|]);
    split; intros el; rewrite !Hobs, !list_elem_of_union; prop_tauto.
Qed.

(** *** The trial counters within one reconstruction *)

Lemma count_at_insert (i k : N) (n : nat) (c : gmap N nat) :
  count_at i (<[k := n]> c) = if decide (k = i) then n else count_at i c.
Proof.
  unfold count_at. case_decide as Hk.
  - subst. by rewrite lookup_insert_eq.
  - by rewrite lookup_insert_ne.
Qed.

Lemma count_at_incr (i k : N) (c : gmap N nat) :
  count_at i (incr k c)
  = if decide (k = i) then S (count_at i c) else count_at i c.
Proof.
  unfold incr. rewrite count_at_insert. case_decide; by subst.
Qed.

(** A loop whose body keeps a field keeps it. *)
Lemma foldl_keeps {A B} (field : RegistrationStatistics → B)
    (f : RegistrationStatistics → A → RegistrationStatistics)
    (l : list A) (s : RegistrationStatistics) :
  (∀ s a, field (f s a) = field s) → field (foldl f s l) = field s.
Proof.
  intros Hf. revert s. induction l as [|a l IH]; intros s; simpl; [done|].
  by rewrite IH, Hf.
Qed.

Lemma RegisterFrameEvent_num_reg_trials (f : frame_t)
    (s : RegistrationStatistics) :
  num_reg_trials (RegisterFrameEvent f s) = num_reg_trials s.
Proof.
  unfold MapperModel.RegisterFrameEvent.
  by rewrite (foldl_keeps num_reg_trials).
Qed.

Lemma DeRegisterFrameEvent_num_reg_trials (f : frame_t)
    (s : RegistrationStatistics) :
  num_reg_trials (DeRegisterFrameEvent f s) = num_reg_trials s.
Proof.
  unfold MapperModel.DeRegisterFrameEvent.
  by rewrite (foldl_keeps num_reg_trials).
Qed.

Lemma search_initial_pair_num_reg_trials (options : Options)
    (pairs : list image_pair_t) (s : RegistrationStatistics) :
  num_reg_trials (search_initial_pair options pairs s).1 = num_reg_trials s.
Proof.
  revert s. induction pairs as [|pr rest IH]; intros s; simpl; [done|].
  destruct (init_pair_skipped options s pr); [by apply IH|].
  destruct (EstimateInitialTwoViewGeometry options pr.1 pr.2); [done|].
  by rewrite IH.
Qed.

Lemma register_frame_num_reg_trials (f : frame_t)
    (st : gset frame_t * RegistrationStatistics) :
  num_reg_trials (register_frame f st).2 = num_reg_trials st.2.
Proof.
  unfold MapperModel.register_frame. case_decide; [done|].
  apply RegisterFrameEvent_num_reg_trials.
Qed.

(** Within a reconstruction a call never lowers a trial counter, and a failed
    [RegisterNextImage] raises the counter of its image. *)
Lemma exec_num_reg_trials (i : image_t) (c : mapper_call Geometry Rigid3d)
    (m m' : Mapper) :
  exec c m = Returned m' →
  (count_at i (num_reg_trials (reg_stats_ m))
   + (if failed_registration i c m then 1 else 0)
   ≤ count_at i (num_reg_trials (reg_stats_ m')))%nat.
Proof.
  destruct c as [o|o i1 i2 pose|o i'|o|o|ps g|]; simpl.
  - unfold MapperModel.FindInitialImagePair.
    destruct (reconstruction_ m); [|done]. intros [= <-]; simpl.
    rewrite search_initial_pair_num_reg_trials. lia.
  - unfold MapperModel.RegisterInitialImagePair.
    destruct (reconstruction_ m) as [r|]; [|done].
    case_decide; [done|]. intros [= <-]; simpl.
    rewrite !register_frame_num_reg_trials; simpl. lia.
  - unfold MapperModel.RegisterNextImage.
    destruct (reconstruction_ m) as [r|]; [|done].
    case_decide; [done|]. case_decide; [done|].
    destruct (abs_pose_accepted _ _); simpl; intros [= <-]; simpl.
    + rewrite andb_false_r, RegisterFrameEvent_num_reg_trials; simpl.
      rewrite count_at_incr. case_decide; lia.
    + rewrite andb_true_r, count_at_incr.
      case_bool_decide; case_decide; try done; lia.
  - unfold MapperModel.FilterFrames.
    destruct (reconstruction_ m) as [r|]; [|done]. intros [= <-]; simpl.
    rewrite (foldl_keeps num_reg_trials); [lia|].
    intros; apply DeRegisterFrameEvent_num_reg_trials.
  - unfold MapperModel.FilterPoints.
    destruct (reconstruction_ m) as [r|]; [|done]. intros [= <-]; simpl. lia.
  - unfold MapperModel.UpdateScene.
    destruct (reconstruction_ m) as [r|]; [|done]. intros [= <-]; simpl. lia.
  - intros [= <-]; simpl. lia.
Qed.

Lemma run_num_reg_trials (i : image_t)
    (cs : list (mapper_call Geometry Rigid3d)) (m m' : Mapper) :
  run cs m = Returned m' →
  (count_at i (num_reg_trials (reg_stats_ m)) + failed_attempts i cs m
   ≤ count_at i (num_reg_trials (reg_stats_ m')))%nat.
Proof.
  revert m. induction cs as [|c cs IH]; intros m; simpl.
  - intros [= <-]. lia.
  - destruct (exec c m) as [m1|e] eqn:Hc; [|done]. intros Hrun.
    pose proof (exec_num_reg_trials i _ _ _ Hc).
    pose proof (IH _ Hrun). lia.
Qed.

(** An image that [FindNextImages] returns has trials left. *)
Lemma FindNextImages_trials_left (options : Options) (m : Mapper)
    (candidates : list image_t) (i : image_t) :
  FindNextImages options m = Returned candidates → i ∈ candidates →
  (Z.of_nat (count_at i (num_reg_trials (reg_stats_ m)))
   < max_reg_trials options)%Z.
Proof.
  unfold MapperModel.FindNextImages.
  destruct (reconstruction_ m) as [r|]; [|done]. intros [= <-].
  rewrite merge_sort_Permutation, list_elem_of_filter.
  unfold MapperModel.next_image_candidate, exhausted_reg_trials.
  intros [Hcand _]. apply andb_true_iff in Hcand as [_ Htrials].
  apply negb_true_iff, bool_decide_eq_false in Htrials. lia.
Qed.

(** C4. Within one reconstruction, once the history holds more than
    [max_reg_trials] failed [RegisterNextImage] attempts on an image, no
    later [FindNextImages] call with that bound returns the image, whatever
    is called in between. *)
Theorem exhausted_image_never_returned (options : Options) (i : image_t)
    (cs1 cs2 : list (mapper_call Geometry Rigid3d)) (m1 m2 m3 : Mapper)
    (candidates : list image_t) :
  run cs1 m1 = Returned m2 →
  (max_reg_trials options < Z.of_nat (failed_attempts i cs1 m1))%Z →
  run cs2 m2 = Returned m3 →
  FindNextImages options m3 = Returned candidates →
  i ∉ candidates.
Proof.
  intros Hrun1 Hfailed Hrun2 Hfind Hin.
  pose proof (run_num_reg_trials i _ _ _ Hrun1).
  pose proof (run_num_reg_trials i _ _ _ Hrun2).
  pose proof (FindNextImages_trials_left _ _ _ _ Hfind Hin). lia.
Qed.

(** *** Registration events and the global counts *)

#[local] Instance stats_agree_preorder : PreOrder stats_agree.
Proof.
  split.
  - by intros s.
  - intros s1 s2 s3 (Ht & Hs & Hn) (Ht' & Hs' & Hn'). unfold stats_agree.
    rewrite Ht, Hs. split; [done|]. split; [done|].
    intros i. by rewrite Hn.
Qed.

#[local] Instance stats_agree_symmetric : Symmetric stats_agree.
Proof. intros s1 s2 (Ht & Hs & Hn). by split; [|split]. Qed.

#[local] Instance register_image_agree (i : image_t) :
  Proper (stats_agree ==> stats_agree) (register_image i).
Proof.
  intros s s' (Ht & Hs & Hn). unfold stats_agree; simpl.
  rewrite Ht, Hs, (Hn i). split; [done|]. split; [done|].
  intros j. rewrite !count_at_insert. by case_decide.
Qed.

#[local] Instance deregister_image_agree (i : image_t) :
  Proper (stats_agree ==> stats_agree) (deregister_image i).
Proof.
  intros s s' (Ht & Hs & Hn). unfold stats_agree; simpl.
  rewrite Ht, Hs, (Hn i). split; [done|]. split; [done|].
  intros j. rewrite !count_at_insert. by case_decide.
Qed.

(** The order of two registrations does not matter. *)
Lemma register_image_comm (i j : image_t) (s : RegistrationStatistics) :
  stats_agree (register_image i (register_image j s))
              (register_image j (register_image i s)).
Proof.
  destruct (decide (i = j)) as [->|Hij]; [done|].
  unfold stats_agree; simpl. rewrite !count_at_insert.
  rewrite !decide_False by done.
  split; [|split].
  - repeat case_bool_decide; lia.
  - repeat case_bool_decide; lia.
  - intros k. rewrite !count_at_insert. repeat case_decide; congruence.
Qed.

(** De-registering an image undoes its registration. *)
Lemma deregister_register_image (i : image_t) (s : RegistrationStatistics) :
  stats_agree (deregister_image i (register_image i s)) s.
Proof.
  unfold stats_agree; simpl. rewrite !count_at_insert.
  rewrite !decide_True by done. simpl.
  split; [|split].
  - repeat case_bool_decide; lia.
  - repeat case_bool_decide; lia.
  - intros k. rewrite !count_at_insert. by case_decide; subst.
Qed.

#[local] Instance foldr_register_image_perm (s0 : RegistrationStatistics) :
  Proper ((≡ₚ) ==> stats_agree) (foldr register_image s0).
Proof.
  apply (foldr_permutation_proper stats_agree); [apply _|].
  intros i j s. apply register_image_comm.
Qed.

Lemma foldr_register_image_agree (l : list image_t)
    (s s' : RegistrationStatistics) :
  stats_agree s s' →
  stats_agree (foldr register_image s l) (foldr register_image s' l).
Proof.
  intros Hs. induction l as [|i l IH]; simpl; [done|]. by rewrite IH.
Qed.

(** A loop of registrations is the fold of them, in any order. *)
Lemma foldl_register_image (l : list image_t) (s : RegistrationStatistics) :
  stats_agree (foldl (fun s i => register_image i s) s l)
              (foldr register_image s l).
Proof.
  revert s. induction l as [|i l IH]; intros s; simpl; [done|].
  rewrite IH. change (register_image i s) with (foldr register_image s [i]).
  rewrite <- foldr_app.
  change (register_image i (foldr register_image s l))
    with (foldr register_image s (i :: l)).
  apply foldr_register_image_perm. by rewrite Permutation_app_comm.
Qed.

(** De-registering images that were registered leaves the registrations of
    the others. *)
Lemma foldl_deregister_image (k : list image_t) :
  ∀ (l l' : list image_t) (s s0 : RegistrationStatistics),
    l ≡ₚ k ++ l' →
    stats_agree s (foldr register_image s0 l) →
    stats_agree (foldl (fun s i => deregister_image i s) s k)
                (foldr register_image s0 l').
Proof.
  induction k as [|i k IH]; intros l l' s s0 Hl Hs; simpl in *.
  - by rewrite Hs, Hl.
  - apply (IH (k ++ l') l'); [done|].
    rewrite Hs, Hl; simpl. apply deregister_register_image.
Qed.

Lemma set_num_reg_frames_per_rig_agree (c : gmap rig_t nat)
    (s : RegistrationStatistics) :
  stats_agree (set_num_reg_frames_per_rig c s) s.
Proof. done. Qed.

Lemma set_num_reg_trials_agree (c : gmap image_t nat)
    (s : RegistrationStatistics) :
  stats_agree (set_num_reg_trials c s) s.
Proof. done. Qed.

Lemma search_initial_pair_agree (options : Options)
    (pairs : list image_pair_t) (s : RegistrationStatistics) :
  stats_agree (search_initial_pair options pairs s).1 s.
Proof.
  revert s. induction pairs as [|pr rest IH]; intros s; simpl; [done|].
  destruct (init_pair_skipped options s pr); [by apply IH|].
  destruct (EstimateInitialTwoViewGeometry options pr.1 pr.2); [done|].
  by rewrite IH.
Qed.

(** The event of a frame registers its images. *)
Lemma RegisterFrameEvent_images (f : frame_t)
    (s s0 : RegistrationStatistics) (l : list image_t) :
  stats_agree s (foldr register_image s0 l) →
  stats_agree (RegisterFrameEvent f s)
    (foldr register_image s0 (frame_images database_cache_ f ++ l)).
Proof.
  intros Hs. unfold MapperModel.RegisterFrameEvent.
  rewrite foldl_register_image, foldr_app.
  apply foldr_register_image_agree.
  by rewrite set_num_reg_frames_per_rig_agree.
Qed.

(** The event of a registered frame de-registers its images. *)
Lemma DeRegisterFrameEvent_images (f : frame_t)
    (s s0 : RegistrationStatistics) (l l' : list image_t) :
  l ≡ₚ frame_images database_cache_ f ++ l' →
  stats_agree s (foldr register_image s0 l) →
  stats_agree (DeRegisterFrameEvent f s) (foldr register_image s0 l').
Proof.
  intros Hl Hs. unfold MapperModel.DeRegisterFrameEvent.
  apply (foldl_deregister_image _ l); [done|].
  by rewrite set_num_reg_frames_per_rig_agree.
Qed.

Lemma foldl_RegisterFrameEvent_images (frames : list frame_t) :
  ∀ (s s0 : RegistrationStatistics) (l : list image_t),
    stats_agree s (foldr register_image s0 l) →
    stats_agree (foldl (fun s f => RegisterFrameEvent f s) s frames)
      (foldr register_image s0 (images_of_frames frames ++ l)).
Proof.
  induction frames as [|f frames IH]; intros s s0 l Hs; simpl; [done|].
  rewrite (IH _ s0 (frame_images database_cache_ f ++ l))
    by by apply RegisterFrameEvent_images.
  apply foldr_register_image_perm.
  unfold MapperModel.images_of_frames. rewrite ?bind_cons.
  rewrite (assoc_L (++)). f_equiv. apply Permutation_app_comm.
Qed.

Lemma foldl_DeRegisterFrameEvent_images (frames : list frame_t) :
  ∀ (s s0 : RegistrationStatistics) (l l' : list image_t),
    l ≡ₚ images_of_frames frames ++ l' →
    stats_agree s (foldr register_image s0 l) →
    stats_agree (foldl (fun s f => DeRegisterFrameEvent f s) s frames)
      (foldr register_image s0 l').
Proof.
  induction frames as [|f frames IH]; intros s s0 l l' Hl Hs; simpl.
  - by rewrite Hs, Hl.
  - apply (IH _ s0 (images_of_frames frames ++ l') l'); [done|].
    apply (DeRegisterFrameEvent_images f s s0 l); [|done].
    rewrite Hl. unfold MapperModel.images_of_frames.
    by rewrite bind_cons, (assoc_L (++)).
Qed.

(** *** The invariant of a reconstruction in progress *)

Lemma registrations_tracked_agree (s0 s s' : RegistrationStatistics)
    (frames : gset frame_t) :
  stats_agree s' s → registrations_tracked s0 frames s →
  registrations_tracked s0 frames s'.
Proof. unfold MapperModel.registrations_tracked. by intros ->. Qed.

Lemma registrations_tracked_register (s0 s : RegistrationStatistics)
    (frames : gset frame_t) (f : frame_t) :
  f ∉ frames → registrations_tracked s0 frames s →
  registrations_tracked s0 ({[f]} ∪ frames) (RegisterFrameEvent f s).
Proof.
  unfold MapperModel.registrations_tracked. intros Hf Hs.
  rewrite (RegisterFrameEvent_images f s s0 _ Hs).
  apply foldr_register_image_perm.
  unfold MapperModel.images_of_frames.
  by rewrite (elements_union_singleton frames f Hf), bind_cons.
Qed.

Lemma register_frame_tracked (s0 : RegistrationStatistics) (f : frame_t)
    (st : gset frame_t * RegistrationStatistics) :
  registrations_tracked s0 st.1 st.2 →
  registrations_tracked s0 (register_frame f st).1 (register_frame f st).2.
Proof.
  unfold MapperModel.register_frame. case_decide; [done|]. simpl.
  by apply registrations_tracked_register.
Qed.

(** The frames of a set, a duplicate-free part of them first. *)
Lemma elements_split (frames : gset frame_t) (part : list frame_t) :
  NoDup part → (∀ f, f ∈ part → f ∈ frames) →
  elements frames ≡ₚ part ++ elements (frames ∖ list_to_set part).
Proof.
  intros Hnd Hsub. apply NoDup_Permutation.
  - apply NoDup_elements.
  - apply NoDup_app. split; [done|]. split; [|apply NoDup_elements].
    intros f Hf. rewrite elem_of_elements, elem_of_difference.
    rewrite elem_of_list_to_set. prop_tauto.
  - intros f. rewrite elem_of_app, !elem_of_elements.
    rewrite elem_of_difference, elem_of_list_to_set.
    pose proof (Hsub f). destruct (decide (f ∈ part)); prop_tauto.
Qed.

Lemma registrations_tracked_deregister (s0 s : RegistrationStatistics)
    (frames : gset frame_t) (part : list frame_t) :
  NoDup part → (∀ f, f ∈ part → f ∈ frames) →
  registrations_tracked s0 frames s →
  registrations_tracked s0 (frames ∖ list_to_set part)
    (foldl (fun s f => DeRegisterFrameEvent f s) s part).
Proof.
  unfold MapperModel.registrations_tracked. intros Hnd Hsub Hs.
  apply (foldl_DeRegisterFrameEvent_images part s s0
           (images_of_frames (elements frames))); [|done].
  unfold MapperModel.images_of_frames.
  by rewrite (elements_split frames part Hnd Hsub), bind_app.
Qed.

(** Every call of a reconstruction in progress keeps the invariant. *)
Lemma exec_tracked (s0 : RegistrationStatistics)
    (c : mapper_call Geometry Rigid3d) (m m' : Mapper) :
  mapper_tracked Geometry database_cache_ s0 m →
  exec c m = Returned m' →
  mapper_tracked Geometry database_cache_ s0 m'.
Proof.
  intros (r & Hr & Hs).
  destruct c as [o|o i1 i2 pose|o i'|o|o|ps g|]; simpl.
  - unfold MapperModel.FindInitialImagePair. rewrite Hr.
    intros [= <-]. exists r; simpl. split; [done|].
    eapply registrations_tracked_agree; [|done].
    apply search_initial_pair_agree.
  - unfold MapperModel.RegisterInitialImagePair. rewrite Hr.
    case_decide; [done|]. intros [= <-]. eexists; simpl. split; [done|].
    simpl. by do 2 apply register_frame_tracked.
  - unfold MapperModel.RegisterNextImage. rewrite Hr.
    case_decide; [done|]. case_decide; [done|].
    destruct (abs_pose_accepted _ _); intros [= <-]; eexists; simpl;
      (split; [done|]); simpl.
    + apply registrations_tracked_register; [done|].
      eapply registrations_tracked_agree; [|done].
      apply set_num_reg_trials_agree.
    + eapply registrations_tracked_agree; [|done].
      apply set_num_reg_trials_agree.
  - unfold MapperModel.FilterFrames. rewrite Hr.
    intros [= <-]. eexists; simpl. split; [done|]. simpl.
    apply registrations_tracked_deregister; [| |done].
    + apply NoDup_filter, NoDup_elements.
    + intros f [_ Hf]%list_elem_of_filter. by apply elem_of_elements.
  - unfold MapperModel.FilterPoints. rewrite Hr.
    intros [= <-]. eexists; simpl. split; [done|]. done.
  - unfold MapperModel.UpdateScene. rewrite Hr.
    intros [= <-]. eexists; simpl. split; [done|]. done.
  - intros [= <-]. exists r; simpl. split; [done|]. done.
Qed.

Lemma run_tracked (s0 : RegistrationStatistics)
    (cs : list (mapper_call Geometry Rigid3d)) (m m' : Mapper) :
  mapper_tracked Geometry database_cache_ s0 m →
  run cs m = Returned m' →
  mapper_tracked Geometry database_cache_ s0 m'.
Proof.
  revert m. induction cs as [|c cs IH]; intros m Hm; simpl.
  - by intros [= <-].
  - destruct (exec c m) as [m1|e] eqn:Hc; [|done].
    apply IH. by apply (exec_tracked s0 c m).
Qed.

(** After [BeginReconstruction] the statistics track the scene's frames from
    the earlier statistics with the shared count at zero. *)
Lemma BeginReconstruction_tracked (reconstruction : Reconstruction Geometry)
    (m0 m1 : Mapper) :
  BeginReconstruction reconstruction m0 = Returned m1 →
  mapper_tracked Geometry database_cache_
    (set_num_shared_reg_images 0 (reg_stats_ m0)) m1.
Proof.
  unfold MapperModel.BeginReconstruction.
  destruct (reconstruction_ m0); [done|]. intros [= <-].
  exists reconstruction; simpl. split; [done|].
  unfold MapperModel.registrations_tracked.
  rewrite set_num_reg_trials_agree.
  rewrite (foldl_RegisterFrameEvent_images _ _
             (set_num_shared_reg_images 0 (reg_stats_ m0)) []) by done.
  by rewrite app_nil_r.
Qed.


End MapperFacts.

(** Instances of the theorems above on the example scene. *)

Lemma exhausted_image_never_returned_witness : 2%N ∉ [3%N].
Proof.
  apply (exhausted_image_never_returned nat nat example_database
           (example_two_view 120) example_abs_pose example_register
           example_seed example_score example_score example_score
           example_degenerate example_reproj_error example_tri_angle
           Options_default 2%N example_four_attempts example_later_calls
           example_begun example_after_attempts example_after_later_calls
           [3%N]).
  - vm_compute. reflexivity.
  - vm_compute. reflexivity.
  - vm_compute. reflexivity.
  - vm_compute. reflexivity.
Defined.



Lemma MergePoints3D_union_commutative_witness :
  ∃ k12 ps12 k21 ps21,
    MergePoints3D 1 2 example_points = Some (k12, ps12)
    ∧ MergePoints3D 2 1 example_points = Some (k21, ps21)
    ∧ (k12 = 1%N ∧ ps12 !! 2%N = None ∨ k12 = 2%N ∧ ps12 !! 1%N = None)
    ∧ (∀ el, observations_of ps12 k12 el
             ↔ el ∈ [mk_track_el 1 10; mk_track_el 2 20]
               ∨ el ∈ [mk_track_el 2 21; mk_track_el 3 30])
    ∧ (∀ el, observations_of ps12 k12 el ↔ observations_of ps21 k21 el).
Proof.
  apply (MergePoints3D_union_commutative example_points 1%N 2%N
           {| error := 1 # 2;
              track := [mk_track_el 1 10; mk_track_el 2 20] |}
           {| error := 3 # 2;
              track := [mk_track_el 2 21; mk_track_el 3 30] |}).
  - vm_compute. reflexivity.
  - vm_compute. reflexivity.
  - discriminate.
Defined.

Lemma FindInitialImagePair_acceptance_witness :
  (∃ m', FindInitialImagePair nat nat example_database (example_two_view 120)
           Options_default example_begun
         = Returned (m', Some (1%N, 2%N, 0%nat)))
  ∧ (∃ m', FindInitialImagePair nat nat example_database (example_two_view 80)
             Options_default example_begun
           = Returned (m', None))
  ∧ suitable_for_initialization Options_default
      (example_two_view 120 Options_default 1%N 2%N) = true
  ∧ suitable_for_initialization Options_default
      (example_two_view 80 Options_default 1%N 2%N) = false.
Proof.
  destruct (FindInitialImagePair_acceptance nat nat example_database
              (example_two_view 120) Options_default)
    as (_ & _ & _ & Hfirst & Hdefault).
  destruct (FindInitialImagePair_acceptance nat nat example_database
              (example_two_view 80) Options_default)
    as (_ & _ & Hnone & _ & Hdefault').
  split; [|split; [|split]].
  - apply (Hfirst example_begun (1%N, 2%N) [] 0%nat).
    + vm_compute. eauto.
    + reflexivity.
    + vm_compute. reflexivity.
    + vm_compute. reflexivity.
  - apply Hnone.
    + vm_compute. eauto.
    + intros pr Hpr. apply list_elem_of_singleton in Hpr as ->.
      vm_compute. reflexivity.
  - apply (Hdefault (example_two_view 120 Options_default 1%N 2%N));
      [vm_compute; discriminate..|reflexivity].
  - apply (Hdefault' (example_two_view 80 Options_default 1%N 2%N));
      [vm_compute; discriminate..|reflexivity].
Defined.

Lemma FilterPoints_bounds_reproj_error_witness :
  (example_reproj_error 0%nat 1%N (mk_track_el 2 20) <= 4 # 1)%Q
  ∧ ¬ (4 # 1 < example_reproj_error 0%nat 1%N (mk_track_el 2 20))%Q.
Proof.
  apply (FilterPoints_bounds_reproj_error nat example_reproj_error
           example_tri_angle Options_default example_begun
           (set_reconstruction
              {| reg_frame_ids := {[1%N]};
                 points3D := {[ 1%N := {| error := 1 # 2;
                                          track := [mk_track_el 1 10;
                                                    mk_track_el 2 20] |} ]};
                 geometry := 0%nat |} example_begun)
           1%nat
           {| reg_frame_ids := {[1%N]};
              points3D := {[ 1%N := {| error := 1 # 2;
                                       track := [mk_track_el 1 10;
                                                 mk_track_el 2 20] |} ]};
              geometry := 0%nat |}
           1%N
           {| error := 1 # 2;
              track := [mk_track_el 1 10; mk_track_el 2 20] |}
           (mk_track_el 2 20)).
  - vm_compute. reflexivity.
  - reflexivity.
  - vm_compute. reflexivity.
  - apply list_elem_of_In. simpl. tauto.
Defined.

End MapperProperties.

(** ** Part V: further properties of the rig container (colmap/scene/rig.cc) *)

Module RigExtraProperties.

Import RigModel RigExtras RigProperties.

Section RigHistoryFacts.
Context {SensorType : Type} `{Countable SensorType}.
Variable Rigid3d : Type.
Local Abbreviation sensor_t := (@RigModel.sensor_t SensorType).
Variable kInvalidSensorId : sensor_t.

Local Abbreviation Rig := (Rig (SensorType := SensorType) Rigid3d).
Local Abbreviation Rig_new := (Rig_new Rigid3d kInvalidSensorId).
Local Abbreviation NumSensors := (NumSensors kInvalidSensorId).
Local Abbreviation AddRefSensor := (AddRefSensor kInvalidSensorId).
Local Abbreviation AddSensor := (AddSensor kInvalidSensorId).
Local Abbreviation run := (run kInvalidSensorId).
Local Abbreviation after := (after kInvalidSensorId).
Local Abbreviation returns := (returns kInvalidSensorId).
Local Abbreviation returned_calls := (returned_calls kInvalidSensorId).
Local Abbreviation names_a_sensor := (names_a_sensor kInvalidSensorId).

Lemma HasSensor_false (i : sensor_t) (r : Rig) :
  HasSensor i r = false ↔
  i ≠ ref_sensor_id_ r ∧ sensors_from_rig_ r !! i = None.
Proof.
  unfold HasSensor. rewrite orb_false_iff, !bool_decide_eq_false.
  by rewrite eq_None_not_Some.
Qed.

(** X1. When the rig has a sensor already and does not have [sensor_id],
    [AddSensor] returns; afterwards the pose map holds the given pose under
    [sensor_id], every other entry and the reference sensor are untouched,
    and [NumSensors] is one more. *)
Theorem AddSensor_returns_and_stores (r : Rig) (sensor_id : sensor_t)
    (sensor_from_rig : option Rigid3d) :
  (1 ≤ NumSensors r)%nat → HasSensor sensor_id r = false →
  (AddSensor sensor_id sensor_from_rig r).2 = Returned tt
  ∧ sensors_from_rig_ (AddSensor sensor_id sensor_from_rig r).1 !! sensor_id
    = Some sensor_from_rig
  ∧ (∀ j, j ≠ sensor_id →
          sensors_from_rig_ (AddSensor sensor_id sensor_from_rig r).1 !! j
          = sensors_from_rig_ r !! j)
  ∧ ref_sensor_id_ (AddSensor sensor_id sensor_from_rig r).1
    = ref_sensor_id_ r
  ∧ NumSensors (AddSensor sensor_id sensor_from_rig r).1
    = S (NumSensors r).
Proof.
  intros Hn Hhas. rewrite AddSensor_eq, bool_decide_eq_true_2, Hhas by done.
  apply HasSensor_false in Hhas as [_ Hnone]. simpl.
  unfold RigModel.NumSensors, emplace; simpl. rewrite Hnone.
  split; [done|]. split; [by rewrite lookup_insert_eq|].
  split; [by intros j Hj; rewrite lookup_insert_ne|]. split; [done|].
  by rewrite map_size_insert_None.
Qed.

(** X2. On every rig reached from construction, [AddSensor] returns exactly
    when the reference sensor is set and [sensor_id] is neither the reference
    sensor nor a key of the pose map. *)
Theorem AddSensor_returns_iff (cs : list (call Rigid3d))
    (sensor_id : sensor_t) (sensor_from_rig : option Rigid3d) :
  (AddSensor sensor_id sensor_from_rig (run cs Rig_new)).2 = Returned tt ↔
  ref_sensor_id_ (run cs Rig_new) ≠ kInvalidSensorId
  ∧ sensor_id ≠ ref_sensor_id_ (run cs Rig_new)
  ∧ sensors_from_rig_ (run cs Rig_new) !! sensor_id = None.
Proof.
  assert (Hinv : unset_means_empty kInvalidSensorId (run cs Rig_new)).
  { apply unset_means_empty_run. by intros _. }
  rewrite AddSensor_eq. split.
  - case_bool_decide as Hn; [|done].
    destruct (HasSensor sensor_id (run cs Rig_new)) eqn:Hhas; [done|].
    intros _. apply HasSensor_false in Hhas as [Hne Hnone].
    split; [|done]. intros Hunset.
    unfold RigModel.NumSensors in Hn.
    rewrite (Hinv Hunset), decide_True, map_size_empty in Hn by done. lia.
  - intros (Hset & Hne & Hnone).
    rewrite bool_decide_eq_true_2 by by apply NumSensors_ref_set.
    by rewrite (proj2 (HasSensor_false _ _)).
Qed.

(** The reference sensor is not a key of the pose map, and the map is empty
    while the reference sensor is unset: kept by every call. *)
Lemma ref_not_stored_after (r : Rig) (c : call Rigid3d) :
  unset_means_empty kInvalidSensorId r →
  sensors_from_rig_ r !! ref_sensor_id_ r = None →
  sensors_from_rig_ (after r c) !! ref_sensor_id_ (after r c) = None.
Proof.
  intros Hinv Href. unfold RigModel.after. destruct c as [i|i p]; simpl.
  - rewrite AddRefSensor_eq. case_bool_decide as Hc; [|done]. simpl.
    by rewrite (Hinv Hc).
  - rewrite AddSensor_eq. case_bool_decide as Hn; [|done].
    destruct (HasSensor i r) eqn:Hhas; [done|]. simpl.
    apply HasSensor_false in Hhas as [Hne Hnone].
    unfold emplace. rewrite Hnone. by rewrite lookup_insert_ne.
Qed.

Lemma ref_not_stored_run (cs : list (call Rigid3d)) (r : Rig) :
  unset_means_empty kInvalidSensorId r →
  sensors_from_rig_ r !! ref_sensor_id_ r = None →
  sensors_from_rig_ (run cs r) !! ref_sensor_id_ (run cs r) = None.
Proof.
  revert r. induction cs as [|c cs IH]; intros r Hinv Href; [done|]. simpl.
  apply IH; [by apply unset_means_empty_after|].
  by apply ref_not_stored_after.
Qed.

(** X3. On every rig reached from construction the reference sensor is not a
    key of the pose map: [NumSensors] never counts a sensor twice. *)
Theorem ref_sensor_not_stored (cs : list (call Rigid3d)) :
  sensors_from_rig_ (run cs Rig_new) !! ref_sensor_id_ (run cs Rig_new)
  = None.
Proof. apply ref_not_stored_run; [by intros _|done]. Qed.

Lemma NumSensors_after (r : Rig) (c : call Rigid3d) :
  NumSensors (after r c)
  = (NumSensors r
     + (if returns c r && names_a_sensor c then 1 else 0))%nat.
Proof.
  unfold RigModel.after, RigExtras.returns. destruct c as [i|i p]; simpl.
  - rewrite AddRefSensor_eq. case_bool_decide as Hc; simpl; [|lia].
    unfold RigModel.NumSensors; simpl.
    destruct (decide (ref_sensor_id_ r = kInvalidSensorId)); [|done].
    case_bool_decide; case_decide; simpl; try done; lia.
  - rewrite AddSensor_eq. case_bool_decide as Hn; simpl; [|lia].
    destruct (HasSensor i r) eqn:Hhas; simpl; [lia|].
    apply HasSensor_false in Hhas as [_ Hnone].
    unfold RigModel.NumSensors, emplace; simpl. rewrite Hnone.
    rewrite map_size_insert_None by done. lia.
Qed.

(** X4. After any history of calls, [NumSensors] has grown by the number of
    calls that returned and named a sensor; a call that raised, and an
    [AddRefSensor] of the sentinel, add nothing. On a new rig it is that
    number. *)
Theorem NumSensors_counts_returned_calls (cs : list (call Rigid3d)) :
  (∀ r : Rig,
     NumSensors (run cs r)
     = (NumSensors r
        + length (filter (fun c => names_a_sensor c = true)
                         (returned_calls cs r)))%nat)
  ∧ NumSensors (run cs Rig_new)
    = length (filter (fun c => names_a_sensor c = true)
                     (returned_calls cs Rig_new)).
Proof.
  assert (Hgen : ∀ r : Rig,
     NumSensors (run cs r)
     = (NumSensors r
        + length (filter (fun c => names_a_sensor c = true)
                         (returned_calls cs r)))%nat).
  { induction cs as [|c cs IH]; intros r; simpl; [lia|].
    rewrite IH, NumSensors_after.
    destruct (returns c r); simpl; [|lia].
    rewrite filter_cons. case_decide as Hc.
    - rewrite Hc. simpl. lia.
    - destruct (names_a_sensor c); [done|]. lia. }
  split; [done|]. rewrite Hgen.
  unfold RigModel.NumSensors at 1; simpl.
  by rewrite decide_True, map_size_empty.
Qed.

Lemma stored_pose_kept_after (r : Rig) (c : call Rigid3d) (i : sensor_t)
    (p : option Rigid3d) :
  sensors_from_rig_ r !! i = Some p →
  sensors_from_rig_ (after r c) !! i = Some p.
Proof.
  intros Hp. unfold RigModel.after. destruct c as [j|j q]; simpl.
  - rewrite AddRefSensor_eq. by destruct (bool_decide _).
  - rewrite AddSensor_eq. destruct (bool_decide _); [|done].
    destruct (HasSensor j r) eqn:Hhas; [done|]. simpl.
    apply HasSensor_false in Hhas as [_ Hnone].
    unfold emplace. rewrite Hnone. rewrite lookup_insert_ne; [done|].
    intros ->. congruence.
Qed.

(** X5. No history of calls changes or removes what the rig holds: a pose
    stored under a sensor id stays stored, unchanged, and a set reference
    sensor stays the reference sensor. *)
Theorem rig_contents_permanent (cs : list (call Rigid3d)) (r : Rig) :
  (∀ (i : sensor_t) (p : option Rigid3d),
     sensors_from_rig_ r !! i = Some p →
     sensors_from_rig_ (run cs r) !! i = Some p)
  ∧ (ref_sensor_id_ r ≠ kInvalidSensorId →
     ref_sensor_id_ (run cs r) = ref_sensor_id_ r).
Proof.
  split; [|apply ref_sensor_kept_run].
  revert r. induction cs as [|c cs IH]; intros r i p Hp; [done|].
  simpl. apply IH. by apply stored_pose_kept_after.
Qed.

(** X6. Two [AddSensor] calls with different sensor ids commute: each call
    returns or raises the same in either order, and the rig after both is the
    same. *)
Theorem AddSensor_commute (r : Rig) (id1 id2 : sensor_t)
    (pose1 pose2 : option Rigid3d) :
  id1 ≠ id2 →
  (AddSensor id2 pose2 (AddSensor id1 pose1 r).1).1
  = (AddSensor id1 pose1 (AddSensor id2 pose2 r).1).1
  ∧ (AddSensor id1 pose1 (AddSensor id2 pose2 r).1).2
    = (AddSensor id1 pose1 r).2
  ∧ (AddSensor id2 pose2 (AddSensor id1 pose1 r).1).2
    = (AddSensor id2 pose2 r).2.
Proof.
  intros Hne.
  rewrite (AddSensor_eq _ _ id1 pose1 r), (AddSensor_eq _ _ id2 pose2 r).
  case_bool_decide as Hn; simpl.
  - assert (Hgrow : ∀ (i : sensor_t) (p : option Rigid3d),
       (1 ≤ NumSensors (mk_rig (ref_sensor_id_ r)
                               (emplace i p (sensors_from_rig_ r))))%nat).
    { intros i p. unfold RigModel.NumSensors, emplace in *; simpl.
      destruct (sensors_from_rig_ r !! i) eqn:Hi; [done|].
      rewrite map_size_insert_None by done. lia. }
    assert (Hother : ∀ (i j : sensor_t) (p : option Rigid3d), i ≠ j →
       HasSensor j (mk_rig (ref_sensor_id_ r)
                           (emplace i p (sensors_from_rig_ r)))
       = HasSensor j r).
    { intros i j p Hij. unfold HasSensor, emplace; simpl.
      destruct (sensors_from_rig_ r !! i); [done|].
      by rewrite lookup_insert_ne. }
    destruct (HasSensor id1 r) eqn:H1, (HasSensor id2 r) eqn:H2; simpl;
      rewrite !AddSensor_eq; simpl;
      rewrite ?(bool_decide_eq_true_2 _ Hn), ?H1, ?H2; simpl;
      rewrite ?(bool_decide_eq_true_2 _ (Hgrow _ _)),
              ?(Hother id1 id2), ?(Hother id2 id1), ?H1, ?H2 by done;
      simpl; try done.
    apply HasSensor_false in H1 as [_ H1], H2 as [_ H2].
    split; [|done]. f_equal. unfold emplace.
    rewrite H1, H2, !lookup_insert_ne, H1, H2 by done.
    by apply insert_insert_ne.
  - by rewrite !AddSensor_eq, !bool_decide_eq_false_2.
Qed.

(** A call that raises leaves the rig as it was. *)
Lemma after_raised (r : Rig) (c : call Rigid3d) :
  returns c r = false → after r c = r.
Proof.
  unfold RigExtras.returns, RigModel.after. destruct c as [i|i p]; simpl.
  - rewrite AddRefSensor_eq. by destruct (bool_decide _).
  - rewrite AddSensor_eq. destruct (bool_decide _); [|done].
    by destruct (HasSensor i r).
Qed.

(** X8. The calls of a history that raised can be dropped: replaying only the
    calls that returned gives the same rig, and every call of the replay
    returns again. *)
Theorem raised_calls_can_be_dropped (cs : list (call Rigid3d)) (r : Rig) :
  run (returned_calls cs r) r = run cs r
  ∧ returned_calls (returned_calls cs r) r = returned_calls cs r.
Proof.
  revert r. induction cs as [|c cs IH]; intros r; simpl; [done|].
  destruct (returns c r) eqn:Hc; simpl.
  - rewrite Hc. destruct (IH (after r c)) as [-> ->]. done.
  - rewrite (after_raised r c Hc). apply IH.
Qed.

(** Adding sensors that the rig does not have, one after the other. *)
Lemma run_AddSensor_all (others : list (sensor_t * option Rigid3d)) :
  ∀ r : Rig,
    ref_sensor_id_ r ≠ kInvalidSensorId →
    NoDup others.*1 →
    ref_sensor_id_ r ∉ others.*1 →
    (∀ i, i ∈ others.*1 → sensors_from_rig_ r !! i = None) →
    run (map (fun ip => CallAddSensor ip.1 ip.2) others) r
    = mk_rig (ref_sensor_id_ r) (list_to_map others ∪ sensors_from_rig_ r)
    ∧ returned_calls (map (fun ip => CallAddSensor ip.1 ip.2) others) r
      = map (fun ip => CallAddSensor ip.1 ip.2) others.
Proof.
  induction others as [|[i p] rest IH]; intros r Href Hnd Hnotref Hfree.
  - simpl. rewrite (left_id_L ∅ (∪)). by destruct r.
  - simpl in Hnd. apply NoDup_cons in Hnd as [Hi Hnd].
    simpl in Hnotref. apply not_elem_of_cons in Hnotref as [Hne Hnotref].
    assert (Hnone : sensors_from_rig_ r !! i = None).
    { apply Hfree. simpl. by left. }
    assert (Hadd : RigModel.AddSensor kInvalidSensorId i p r
                   = (mk_rig (ref_sensor_id_ r)
                             (<[i := p]> (sensors_from_rig_ r)),
                      Returned tt)).
    { rewrite AddSensor_eq.
      rewrite bool_decide_eq_true_2 by by apply NumSensors_ref_set.
      rewrite (proj2 (HasSensor_false i r)) by done.
      unfold emplace. by rewrite Hnone. }
    simpl. unfold RigExtras.returns, RigModel.after; simpl.
    rewrite Hadd; simpl.
    destruct (IH (mk_rig (ref_sensor_id_ r)
                         (<[i := p]> (sensors_from_rig_ r))))
      as [Hrun Hret]; simpl; try done.
    { intros j Hj. rewrite lookup_insert_ne.
      - apply Hfree. simpl. by right.
      - by intros ->. }
    rewrite Hrun, Hret. split; [|done]. f_equal. simpl.
    rewrite <- insert_union_r by by apply not_elem_of_list_to_map_1.
    by rewrite insert_union_l.
Qed.

(** X7. Filling a new rig the usual way works: after [AddRefSensor] of a
    reference sensor other than the sentinel, [AddSensor] of pairwise
    different sensor ids other than the reference sensor all return, and the
    rig holds the reference sensor and exactly the given poses. *)
Theorem build_calls_make_rig (ref_sensor_id : sensor_t)
    (others : list (sensor_t * option Rigid3d)) :
  ref_sensor_id ≠ kInvalidSensorId →
  NoDup others.*1 →
  ref_sensor_id ∉ others.*1 →
  run (build_calls ref_sensor_id others) Rig_new
  = mk_rig ref_sensor_id (list_to_map others)
  ∧ returned_calls (build_calls ref_sensor_id others) Rig_new
    = build_calls ref_sensor_id others.
Proof.
  intros Href Hnd Hnotref. unfold build_calls; simpl.
  unfold RigExtras.returns, RigModel.after; simpl.
  rewrite AddRefSensor_eq, bool_decide_eq_true_2 by done. simpl.
  destruct (run_AddSensor_all others (mk_rig ref_sensor_id ∅))
    as [Hrun Hret]; simpl; try done.
  rewrite Hrun, Hret. simpl. by rewrite (right_id_L ∅ (∪)).
Qed.

(** X10. The rigs that calls can reach from a new rig are exactly these: the
    reference sensor is not a key of the pose map, and the pose map is empty
    while the reference sensor is unset. *)
Theorem reachable_rigs (r : Rig) :
  (∃ cs : list (call Rigid3d), run cs Rig_new = r) ↔
  sensors_from_rig_ r !! ref_sensor_id_ r = None
  ∧ (ref_sensor_id_ r = kInvalidSensorId → sensors_from_rig_ r = ∅).
Proof.
  split.
  - intros [cs <-]. split.
    + apply ref_not_stored_run; [by intros _|done].
    + apply (unset_means_empty_run Rigid3d kInvalidSensorId cs).
      by intros _.
  - destruct r as [ref m]; simpl. intros [Hnone Hempty].
    destruct (decide (ref = kInvalidSensorId)) as [Hunset|Hset].
    + exists []. simpl. unfold RigModel.Rig_new.
      by rewrite (Hempty Hunset), Hunset.
    + exists (build_calls ref (map_to_list m)).
      destruct (run_AddSensor_all (map_to_list m) (mk_rig ref ∅))
        as [Hrun _]; simpl; try done.
      * apply NoDup_fst_map_to_list.
      * intros ([i p] & -> & Hip%elem_of_map_to_list)%list_elem_of_fmap.
        simpl in *. congruence.
      * unfold build_calls; simpl. unfold RigModel.after; simpl.
        rewrite AddRefSensor_eq, bool_decide_eq_true_2 by done. simpl.
        rewrite Hrun. simpl.
        by rewrite (right_id_L ∅ (∪)), list_to_map_to_list.
Qed.

End RigHistoryFacts.

Section RigStreamFacts.
Context {SensorType : Type} `{Countable SensorType}.
Variable Rigid3d : Type.
Variable show_SensorType : SensorType → string.
Variable kInvalidRigId : N.

Lemma string_append_assoc (s1 s2 s3 : string) :
  (s1 +:+ s2) +:+ s3 = s1 +:+ (s2 +:+ s3).
Proof.
  induction s1 as [|a s1 IH]; [done|].
  change (String a ((s1 +:+ s2) +:+ s3) = String a (s1 +:+ s2 +:+ s3)).
  by rewrite IH.
Qed.

Lemma string_append_nil_r (s : string) : s +:+ "" = s.
Proof.
  induction s as [|a s IH]; [done|].
  change (String a (s +:+ "") = String a s). by rewrite IH.
Qed.

(** The loop prints the sensors joined by ", ". *)
Lemma stream_sensors_join
    (keys : list (sensor_t (SensorType := SensorType))) :
  stream_sensors show_SensorType keys
  = String.concat ", " (show_sensor show_SensorType <$> keys).
Proof.
  induction keys as [|key rest IH]; [done|].
  destruct rest as [|key2 rest].
  - simpl. unfold show_sensor. by rewrite !string_append_nil_r.
  - change (stream_sensors show_SensorType (key :: key2 :: rest))
      with ("(" +:+ show_SensorType (type key) +:+ ", " +:+ pretty (id key)
            +:+ ")" +:+ ", "
            +:+ stream_sensors show_SensorType (key2 :: rest)).
    rewrite IH.
    change (String.concat ", "
              (show_sensor show_SensorType <$> key :: key2 :: rest))
      with (show_sensor show_SensorType key +:+ ", "
            +:+ String.concat ", "
                  (show_sensor show_SensorType <$> key2 :: rest)).
    unfold show_sensor at 2. by rewrite !string_append_assoc.
Qed.

(** X9. [operator<<] prints "Rig(rig_id=R, ref_sensor_id=(t, i), sensors=[
    ... ])" where R is the rig id in decimal, or "Invalid" for the invalid rig
    id, and the sensors are printed as "(t, i)" joined by ", ": no separator
    before the first or after the last, and nothing between the brackets for
    a rig without other sensors. *)
Theorem stream_Rig_joins_sensors (rig_id : N)
    (rig : Rig (SensorType := SensorType) Rigid3d)
    (keys : list (sensor_t (SensorType := SensorType))) :
  stream_Rig show_SensorType kInvalidRigId rig_id rig keys
  = "Rig(rig_id="
    +:+ (if decide (rig_id = kInvalidRigId) then "Invalid"
         else pretty rig_id)
    +:+ ", ref_sensor_id="
    +:+ show_sensor show_SensorType (ref_sensor_id_ rig)
    +:+ ", sensors=["
    +:+ String.concat ", " (show_sensor show_SensorType <$> keys)
    +:+ "])".
Proof.
  unfold stream_Rig, show_sensor at 1. rewrite stream_sensors_join.
  rewrite !string_append_assoc.
  do 2 case_decide; try done; reflexivity.
Qed.

End RigStreamFacts.

(** Instances of the theorems above on the example rig. *)

Lemma AddSensor_returns_and_stores_witness :
  (AddSensor example_invalid_sensor (example_camera 2) (Some 7%nat)
     example_rig).2 = Returned tt
  ∧ sensors_from_rig_
      (AddSensor example_invalid_sensor (example_camera 2) (Some 7%nat)
         example_rig).1 !! example_camera 2 = Some (Some 7%nat)
  ∧ (∀ j, j ≠ example_camera 2 →
          sensors_from_rig_
            (AddSensor example_invalid_sensor (example_camera 2)
               (Some 7%nat) example_rig).1 !! j
          = sensors_from_rig_ example_rig !! j)
  ∧ ref_sensor_id_
      (AddSensor example_invalid_sensor (example_camera 2) (Some 7%nat)
         example_rig).1 = ref_sensor_id_ example_rig
  ∧ NumSensors example_invalid_sensor
      (AddSensor example_invalid_sensor (example_camera 2) (Some 7%nat)
         example_rig).1
    = S (NumSensors example_invalid_sensor example_rig).
Proof.
  apply (AddSensor_returns_and_stores nat example_invalid_sensor example_rig
           (example_camera 2) (Some 7%nat)).
  - vm_compute. lia.
  - vm_compute. reflexivity.
Defined.

Lemma AddSensor_returns_iff_witness :
  (AddSensor example_invalid_sensor (example_camera 2) (Some 7%nat)
     (run example_invalid_sensor [CallAddRefSensor (example_camera 1)]
          (Rig_new nat example_invalid_sensor))).2 = Returned tt.
Proof.
  apply (proj2 (AddSensor_returns_iff nat example_invalid_sensor
                  [CallAddRefSensor (example_camera 1)] (example_camera 2)
                  (Some 7%nat))).
  split; [vm_compute; discriminate|].
  split; [vm_compute; discriminate|]. vm_compute. reflexivity.
Defined.

Lemma rig_contents_permanent_witness :
  sensors_from_rig_
    (run example_invalid_sensor
       [CallAddSensor (example_camera 2) None;
        CallAddRefSensor (example_camera 3)]
       (mk_rig (example_camera 1) {[example_camera 2 := Some 7%nat]}))
    !! example_camera 2 = Some (Some 7%nat)
  ∧ ref_sensor_id_
      (run example_invalid_sensor
         [CallAddSensor (example_camera 2) None;
          CallAddRefSensor (example_camera 3)]
         (mk_rig (example_camera 1) {[example_camera 2 := Some 7%nat]}))
    = example_camera 1.
Proof.
  destruct (rig_contents_permanent nat example_invalid_sensor
              [CallAddSensor (example_camera 2) None;
               CallAddRefSensor (example_camera 3)]
              (mk_rig (example_camera 1)
                      {[example_camera 2 := Some 7%nat]}))
    as [Hpose Href].
  split.
  - apply Hpose. vm_compute. reflexivity.
  - apply Href. vm_compute. discriminate.
Defined.

Lemma AddSensor_commute_witness :
  (AddSensor example_invalid_sensor (example_camera 3) None
     (AddSensor example_invalid_sensor (example_camera 2) (Some 7%nat)
        example_rig).1).1
  = (AddSensor example_invalid_sensor (example_camera 2) (Some 7%nat)
       (AddSensor example_invalid_sensor (example_camera 3) None
          example_rig).1).1
  ∧ (AddSensor example_invalid_sensor (example_camera 2) (Some 7%nat)
       (AddSensor example_invalid_sensor (example_camera 3) None
          example_rig).1).2
    = (AddSensor example_invalid_sensor (example_camera 2) (Some 7%nat)
         example_rig).2
  ∧ (AddSensor example_invalid_sensor (example_camera 3) None
       (AddSensor example_invalid_sensor (example_camera 2) (Some 7%nat)
          example_rig).1).2
    = (AddSensor example_invalid_sensor (example_camera 3) None
         example_rig).2.
Proof.
  apply (AddSensor_commute nat example_invalid_sensor example_rig
           (example_camera 2) (example_camera 3) (Some 7%nat) None).
  vm_compute. discriminate.
Defined.

Lemma build_calls_make_rig_witness :
  run example_invalid_sensor
    (build_calls (example_camera 1)
       [(example_camera 2, Some 7%nat); (example_camera 3, None)])
    (Rig_new nat example_invalid_sensor)
  = mk_rig (example_camera 1)
      (list_to_map [(example_camera 2, Some 7%nat); (example_camera 3, None)])
  ∧ returned_calls example_invalid_sensor
      (build_calls (example_camera 1)
         [(example_camera 2, Some 7%nat); (example_camera 3, None)])
      (Rig_new nat example_invalid_sensor)
    = build_calls (example_camera 1)
        [(example_camera 2, Some 7%nat); (example_camera 3, None)].
Proof.
  apply (build_calls_make_rig nat example_invalid_sensor (example_camera 1)
           [(example_camera 2, Some 7%nat); (example_camera 3, None)]).
  - vm_compute. discriminate.
  - refine (bool_decide_unpack _ _). vm_compute. exact I.
  - refine (bool_decide_unpack _ _). vm_compute. exact I.
Defined.

Lemma reachable_rigs_witness :
  ∃ cs : list (call nat),
    run example_invalid_sensor cs (Rig_new nat example_invalid_sensor)
    = mk_rig (example_camera 1) {[example_camera 2 := Some 7%nat]}.
Proof.
  apply (proj2 (reachable_rigs nat example_invalid_sensor
                  (mk_rig (example_camera 1)
                          {[example_camera 2 := Some 7%nat]}))).
  split.
  - vm_compute. reflexivity.
  - vm_compute. discriminate.
Defined.

End RigExtraProperties.
